(** * DataWirx: the layered memory store and its curator

    A shallow embedding of [memory_store.py] (class [MemoryStore]) and of
    [curator.py] (class [MemoryCurator]), with the properties of the
    storage model and of the promotion pipeline stated over it.

    Conventions of the embedding.
    - The JSON documents under [memory/] are modelled by their parsed
      contents: [canon.json] is a finite map from the full key
      ["namespace/key"] to an entry, [buffer.jsonl] and [disputes.jsonl]
      are lists of records in file (append) order.
    - Python [str] is [string]; [float] values are only carried around by
      this code (never computed with), they are rationals here.
    - The clock ([_now]) and the random source ([uuid.uuid4]) are inputs of
      the operations that read them.
    - The texts built with [!r] and [:.2f] are kept structured ([reply]);
      [render] gives the text.
    - The embedding is the code's on the inputs that the store keeps as
      they are given: strings that a JSONL line carries whole
      ([line_safe]), confidences that [float] returns unchanged
      ([float_exact]) and scratch file names that are one path component
      ([plain_file_name]).  The statements that read such a value back
      carry the corresponding hypothesis. *)

From Stdlib Require Import QArith.
From stdpp Require Import gmap strings list fin_maps.

Local Open Scope string_scope.
Local Open Scope list_scope.

(** ** Python string primitives used by the store *)

(** [s.startswith(p)] *)
Fixpoint startswith (s p : string) {struct p} : bool :=
  match p with
  | EmptyString => true
  | String c p' =>
      match s with
      | EmptyString => false
      | String d s' => if Ascii.eqb d c then startswith s' p' else false
      end
  end.

(** [s[:n]] *)
Fixpoint slice_to (n : nat) (s : string) : string :=
  match n, s with
  | S n', String c s' => String c (slice_to n' s')
  | _, _ => EmptyString
  end.

(** Truth value of a [str] in a condition: the empty string is falsy. *)
Definition truthy (s : string) : bool :=
  match s with
  | EmptyString => false
  | String _ _ => true
  end.

(** ["\n".join(l)] *)
Fixpoint join_lines (l : list string) : string :=
  match l with
  | [] => ""
  | [x] => x
  | x :: rest => x +:+ String (Ascii.ascii_of_nat 10) (join_lines rest)
  end.

(** ** Data model *)

Module Canon.
(** The value stored under a full key in [canon.json]. *)
Record entry := {
  content : string;
  source : string;
  confidence : Q;
  confirmed_by_user : bool;
  last_verified : string;
  namespace : string
}.
End Canon.

Module Buffer.
(** One line of [buffer.jsonl]. *)
Record record := {
  id : string;
  claim : string;
  source : string;
  agent : string;
  task_id : string;
  confidence : Q;
  timestamp : string;
  promoted : bool;
  dismissed : bool
}.

(** [{**r, "promoted": True}] *)
Definition with_promoted (r : record) : record :=
  {| id := id r; claim := claim r; source := source r; agent := agent r;
     task_id := task_id r; confidence := confidence r;
     timestamp := timestamp r; promoted := true; dismissed := dismissed r |}.

(** [{**r, "dismissed": True}] *)
Definition with_dismissed (r : record) : record :=
  {| id := id r; claim := claim r; source := source r; agent := agent r;
     task_id := task_id r; confidence := confidence r;
     timestamp := timestamp r; promoted := promoted r; dismissed := true |}.
End Buffer.

Module Dispute.
(** One line of [disputes.jsonl]. *)
Record record := {
  id : string;
  buffer_id : string;
  canon_id : string;
  reason : string;
  timestamp : string;
  resolved : bool
}.
End Dispute.

Module Task.
(** The document [tasks/<task_id>.json]. *)
Record artifact := { value : string; timestamp : string }.
Record record := {
  task_id : string;
  prompt : string;
  created : string;
  artifacts : gmap string artifact;
  agent_outputs : gmap string string
}.
End Task.

Module Scratch.
(** An element of [scratch/<agent>_<task>.json]. *)
Record note_record := { note : string; timestamp : string }.
End Scratch.

(** The five directories of a [MemoryStore]. *)
Record MemoryStore := {
  canon : gmap string Canon.entry;
  buffer : list Buffer.record;
  disputes : list Dispute.record;
  tasks : gmap string Task.record;
  scratch : gmap string (list Scratch.note_record)
}.

Definition set_canon (c : gmap string Canon.entry) (m : MemoryStore) : MemoryStore :=
  {| canon := c; buffer := buffer m; disputes := disputes m;
     tasks := tasks m; scratch := scratch m |}.

Definition set_buffer (b : list Buffer.record) (m : MemoryStore) : MemoryStore :=
  {| canon := canon m; buffer := b; disputes := disputes m;
     tasks := tasks m; scratch := scratch m |}.

Definition set_disputes (d : list Dispute.record) (m : MemoryStore) : MemoryStore :=
  {| canon := canon m; buffer := buffer m; disputes := d;
     tasks := tasks m; scratch := scratch m |}.

(** A store with nothing on disk yet. *)
Definition empty_store : MemoryStore :=
  {| canon := ∅; buffer := []; disputes := []; tasks := ∅; scratch := ∅ |}.

(** ** Canon *)

(** [f"{namespace}/{key}"] *)
Definition full_key (namespace key : string) : string :=
  namespace +:+ "/" +:+ key.

(** [MemoryStore.read_canon]: every entry, or those whose full key starts
    with [namespace] when that argument is given and not empty. *)
Definition read_canon (namespace : option string) (m : MemoryStore)
  : gmap string Canon.entry :=
  match namespace with
  | Some ns =>
      if truthy ns
      then filter (λ kv, startswith kv.1 ns = true) (canon m)
      else canon m
  | None => canon m
  end.

(** [MemoryStore.write_canon]: [data[entry_id] = {...}], returns the full
    key.  [now] is the reading of the clock. *)
Definition write_canon (now : string)
    (namespace key content source : string) (confidence : Q)
    (confirmed_by_user : bool) (m : MemoryStore) : MemoryStore * string :=
  let entry_id := full_key namespace key in
  let e := {| Canon.content := content;
              Canon.source := source;
              Canon.confidence := confidence;
              Canon.confirmed_by_user := confirmed_by_user;
              Canon.last_verified := now;
              Canon.namespace := namespace |} in
  (set_canon (<[entry_id := e]> (canon m)) m, entry_id).

(** [MemoryStore._seed_canon_if_empty]: nothing when the canon has an
    entry, the two baseline entries otherwise; [now1] and [now2] are the
    readings of the clock by the two writes. *)
Definition _seed_canon_if_empty (now1 now2 : string) (m : MemoryStore)
  : MemoryStore :=
  if decide (canon m = ∅) then
    let m1 :=
      (write_canon now1 "identity" "system"
         ("This is an Orchestrated AI Hierarchy. "
          +:+ "Agents: Orchestrator, ResearchAgent (web search), "
          +:+ "CodeAgent, DataAgent, WritingAgent. "
          +:+ "Max recursion depth: 3.")
         "system_init" 1%Q true m).1 in
    (write_canon now2 "standards" "memory_rules"
       ("Canon = verified truth (write-restricted to Orchestrator and Curator). "
        +:+ "Buffer = unverified candidates (open write). "
        +:+ "Scratch = ephemeral per-agent notes. "
        +:+ "Task = current mission artifacts. "
        +:+ "Buffer claims must be labelled tentative until promoted.")
       "system_init" 1%Q true m1).1
  else m.

(** [MemoryStore.__init__] on a base directory with no files: the five
    directories are created empty and the canon is seeded. *)
Definition __init__ (now1 now2 : string) : MemoryStore :=
  _seed_canon_if_empty now1 now2 empty_store.

(** ** Buffer *)

(** [MemoryStore.add_to_buffer]: [uuid] is [str(uuid.uuid4())], the id is
    its first eight characters; the record is appended to the log (as it
    is read back, for a record that is [record_line_safe]). *)
Definition add_to_buffer (uuid now : string)
    (claim source agent task_id : string) (confidence : Q)
    (m : MemoryStore) : MemoryStore * string :=
  let entry_id := slice_to 8 uuid in
  let r := {| Buffer.id := entry_id;
              Buffer.claim := claim;
              Buffer.source := source;
              Buffer.agent := agent;
              Buffer.task_id := task_id;
              Buffer.confidence := confidence;
              Buffer.timestamp := now;
              Buffer.promoted := false;
              Buffer.dismissed := false |} in
  (set_buffer (buffer m ++ [r]) m, entry_id).

(** [MemoryStore.read_buffer]: the two optional filters, one after the
    other, each a list comprehension over the records read. *)
Definition read_buffer (task_id : option string) (promoted : option bool)
    (m : MemoryStore) : list Buffer.record :=
  let records := buffer m in
  let records :=
    match task_id with
    | Some t => filter (λ r, Buffer.task_id r = t) records
    | None => records
    end in
  match promoted with
  | Some p => filter (λ r, Buffer.promoted r = p) records
  | None => records
  end.

(** [MemoryStore._rewrite_buffer]: every record read is written back
    through [updater]. *)
Definition _rewrite_buffer (updater : Buffer.record → Buffer.record)
    (m : MemoryStore) : MemoryStore :=
  set_buffer (updater <$> buffer m) m.

Definition mark_buffer_promoted (entry_id : string) (m : MemoryStore) : MemoryStore :=
  _rewrite_buffer
    (λ r, if decide (Buffer.id r = entry_id) then Buffer.with_promoted r else r) m.

Definition mark_buffer_dismissed (entry_id : string) (m : MemoryStore) : MemoryStore :=
  _rewrite_buffer
    (λ r, if decide (Buffer.id r = entry_id) then Buffer.with_dismissed r else r) m.

(** ** Disputes *)

(** [MemoryStore.add_dispute] (the log as it is read back, for a record
    that is [dispute_line_safe]) *)
Definition add_dispute (uuid now : string) (buffer_id canon_id reason : string)
    (m : MemoryStore) : MemoryStore * string :=
  let dispute_id := slice_to 8 uuid in
  let r := {| Dispute.id := dispute_id;
              Dispute.buffer_id := buffer_id;
              Dispute.canon_id := canon_id;
              Dispute.reason := reason;
              Dispute.timestamp := now;
              Dispute.resolved := false |} in
  (set_disputes (disputes m ++ [r]) m, dispute_id).

(** ** The curator *)

Module ToolInput.
(** The [input] dictionary of a curator tool call, by the keys of the
    tool schemas; an absent key is [None]. *)
Record t := {
  entry_id : option string;
  namespace : option string;
  key : option string;
  confidence : option Q;
  buffer_id : option string;
  canon_id : option string;
  reason : option string
}.

Definition empty : t :=
  {| entry_id := None; namespace := None; key := None; confidence := None;
     buffer_id := None; canon_id := None; reason := None |}.
End ToolInput.

(** What a dispatched tool call draws from outside: the clock and the
    random source. *)
Record env := { now : string; uuid : string }.

(** The strings returned by the curator, by the f-string that builds each. *)
Inductive reply :=
  | NotFound (entry_id : string)
      (* [Curator] Entry {entry_id!r} not found in buffer. *)
  | AlreadyExists (full_key : string)
      (* [Curator] Canon[{full_key}] already exists. Use flag_conflict ... *)
  | Promoted (entry_id canon_id : string) (confidence : Q)
      (* [Curator] Promoted buffer:{entry_id} → Canon[{canon_id}] (conf=...) *)
  | ConflictRecorded (dispute_id : string)
      (* [Curator] Conflict recorded as dispute {dispute_id} *)
  | Dismissed (entry_id reason : string)
      (* [Curator] Dismissed buffer:{entry_id} — {reason} *)
  | UnknownTool (tool_name : string).
      (* [Error] Unknown curator tool: {tool_name} *)

Section Render.
(** [repr] of a [str] and [format(x, ".2f")], which the embedding does
    not spell out. *)
Variable py_repr : string → string.
Variable fmt_2f : Q → string.

Definition render (r : reply) : string :=
  match r with
  | NotFound entry_id =>
      "[Curator] Entry " +:+ py_repr entry_id +:+ " not found in buffer."
  | AlreadyExists fk =>
      "[Curator] Canon[" +:+ fk +:+ "] already exists. "
      +:+ "Use flag_conflict if there is a discrepancy."
  | Promoted entry_id canon_id c =>
      "[Curator] Promoted buffer:" +:+ entry_id +:+ " → Canon[" +:+ canon_id
      +:+ "] (conf=" +:+ fmt_2f c +:+ ")"
  | ConflictRecorded dispute_id =>
      "[Curator] Conflict recorded as dispute " +:+ dispute_id
  | Dismissed entry_id reason =>
      "[Curator] Dismissed buffer:" +:+ entry_id +:+ " — " +:+ reason
  | UnknownTool tool_name =>
      "[Error] Unknown curator tool: " +:+ tool_name
  end.
End Render.

(** [next((e for e in all_buffer if e.get("id") == entry_id), None)] *)
Definition find_entry (entry_id : string) (all_buffer : list Buffer.record)
  : option Buffer.record :=
  head (filter (λ e, Buffer.id e = entry_id) all_buffer).

(** [f"buffer:{entry['source']}|curator_promoted"] *)
Definition provenance (entry : Buffer.record) : string :=
  "buffer:" +:+ Buffer.source entry +:+ "|curator_promoted".

(** [MemoryCurator._promote], for a confidence that [float(...)] returns
    as it is ([confidence_accepted]) *)
Definition _promote (now : string) (inp : ToolInput.t) (m : MemoryStore)
  : MemoryStore * reply :=
  let entry_id := default "" (ToolInput.entry_id inp) in
  let namespace := default "facts" (ToolInput.namespace inp) in
  let key := default entry_id (ToolInput.key inp) in
  let confidence := default (0.7)%Q (ToolInput.confidence inp) in
  let all_buffer := read_buffer None None m in
  match find_entry entry_id all_buffer with
  | None => (m, NotFound entry_id)
  | Some entry =>
      let existing := read_canon (Some namespace) m in
      let fk := full_key namespace key in
      if decide (is_Some (existing !! fk)) then (m, AlreadyExists fk)
      else
        let '(m1, canon_id) :=
          write_canon now namespace key (Buffer.claim entry)
            (provenance entry) confidence false m in
        let m2 := mark_buffer_promoted entry_id m1 in
        (m2, Promoted entry_id canon_id confidence)
  end.

(** [MemoryCurator._flag_conflict] *)
Definition _flag_conflict (e : env) (inp : ToolInput.t) (m : MemoryStore)
  : MemoryStore * reply :=
  let '(m1, dispute_id) :=
    add_dispute (uuid e) (now e)
      (default "" (ToolInput.buffer_id inp))
      (default "" (ToolInput.canon_id inp))
      (default "" (ToolInput.reason inp)) m in
  (m1, ConflictRecorded dispute_id).

(** [MemoryCurator._dismiss] *)
Definition _dismiss (inp : ToolInput.t) (m : MemoryStore) : MemoryStore * reply :=
  let entry_id := default "" (ToolInput.entry_id inp) in
  let reason := default "low quality or task-specific" (ToolInput.reason inp) in
  (mark_buffer_dismissed entry_id m, Dismissed entry_id reason).

(** [MemoryCurator._dispatch] *)
Definition _dispatch (e : env) (tool_name : string) (tool_input : ToolInput.t)
    (m : MemoryStore) : MemoryStore * reply :=
  if decide (tool_name = "promote_to_canon") then _promote (now e) tool_input m
  else if decide (tool_name = "flag_conflict") then _flag_conflict e tool_input m
  else if decide (tool_name = "dismiss_buffer_entry") then _dismiss tool_input m
  else (m, UnknownTool tool_name).

(** *** The decision oracle and the tool-use loop of [BaseAgent] *)

Inductive block :=
  | TextBlock (text : string)
  | ToolUseBlock (name : string) (input : ToolInput.t).

Inductive stop_reason := EndTurn | ToolUse | OtherStop.

Record response := { stop : stop_reason; content : list block }.

(** The conversation: the prompt of [curate_task] (the task, the entries
    to curate and the canon it lists), then assistant turns and the
    results of their tool calls. *)
Inductive message :=
  | Prompt (task_id : string) (entries : list Buffer.record)
      (canon_listing : gmap string Canon.entry)
  | Assistant (content : list block)
  | ToolResults (results : list reply).

(** [BaseAgent._extract_text] *)
Definition _extract_text (r : response) : string :=
  let texts :=
    omap (λ b, match b with TextBlock t => Some t | _ => None end) (content r) in
  match texts with
  | [] => "[No text response]"
  | _ => join_lines texts
  end.

(** The [for block in response.content] loop of [_agentic_loop]: tool-use
    blocks are dispatched in order, the [k]-th dispatch of the run draws
    [world k]. *)
Fixpoint dispatch_blocks (world : nat → env) (k : nat) (blocks : list block)
    (m : MemoryStore) : MemoryStore * list reply * nat :=
  match blocks with
  | [] => (m, [], k)
  | TextBlock _ :: rest => dispatch_blocks world k rest m
  | ToolUseBlock name input :: rest =>
      let '(m1, res) := _dispatch (world k) name input m in
      let '(m2, results, k') := dispatch_blocks world (S k) rest m1 in
      (m2, res :: results, k')
  end.

(** [BaseAgent._agentic_loop] with [MemoryCurator._dispatch]; the
    [while True] runs for at most [fuel] calls of the oracle, [None] when
    they do not suffice. *)
Fixpoint _agentic_loop (fuel : nat) (oracle : list message → response)
    (world : nat → env) (k : nat) (messages : list message) (m : MemoryStore)
  : option (MemoryStore * string) :=
  match fuel with
  | O => None
  | S fuel' =>
      let resp := oracle messages in
      match stop resp with
      | EndTurn => Some (m, _extract_text resp)
      | ToolUse =>
          let messages := (messages ++ [Assistant (content resp)])%list in
          let '(m1, tool_results, k') :=
            dispatch_blocks world k (content resp) m in
          _agentic_loop fuel' oracle world k'
            (messages ++ [ToolResults tool_results])%list m1
      | OtherStop => Some (m, _extract_text resp)
      end
  end.

(** [MemoryCurator.curate_task] *)
Definition curate_task (fuel : nat) (oracle : list message → response)
    (world : nat → env) (task_id : string) (m : MemoryStore)
  : option (MemoryStore * string) :=
  let buffer :=
    filter (λ e, Buffer.dismissed e = false)
      (read_buffer (Some task_id) (Some false) m) in
  match buffer with
  | [] =>
      Some (m, "[Curator] No buffer entries to curate for task " +:+ task_id +:+ ".")
  | _ :: _ =>
      let canon := read_canon None m in
      _agentic_loop fuel oracle world 0 [Prompt task_id buffer canon] m
  end.

(** ** Dispute reads, scratch and the context slices *)

(** [MemoryStore.read_disputes] *)
Definition read_disputes (resolved : option bool) (m : MemoryStore)
  : list Dispute.record :=
  let records := disputes m in
  match resolved with
  | Some b => filter (λ r, Dispute.resolved r = b) records
  | None => records
  end.

Definition set_scratch (sc : gmap string (list Scratch.note_record))
    (m : MemoryStore) : MemoryStore :=
  {| canon := canon m; buffer := buffer m; disputes := disputes m;
     tasks := tasks m; scratch := sc |}.

(** [f"{agent_type}_{task_id}.json"], the name of a scratch file under
    [scratch/]. *)
Definition scratch_file (agent_type task_id : string) : string :=
  agent_type +:+ "_" +:+ task_id +:+ ".json".

(** [MemoryStore.write_scratch]: the notes read (none when the file is
    absent) with the new note appended are written back.  The scratch
    directory is the map of its files by name, which is what the code's
    paths are for a [plain_file_name]. *)
Definition write_scratch (now : string) (agent_type task_id note : string)
    (m : MemoryStore) : MemoryStore :=
  let path := scratch_file agent_type task_id in
  let notes := default [] (scratch m !! path) in
  let notes := notes ++ [{| Scratch.note := note; Scratch.timestamp := now |}] in
  set_scratch (<[path := notes]> (scratch m)) m.

(** [MemoryStore.read_scratch] *)
Definition read_scratch (agent_type task_id : string) (m : MemoryStore)
  : list Scratch.note_record :=
  default [] (scratch m !! scratch_file agent_type task_id).

(** [MemoryStore.clear_scratch]: the file is removed when it exists. *)
Definition clear_scratch (agent_type task_id : string) (m : MemoryStore)
  : MemoryStore :=
  let path := scratch_file agent_type task_id in
  match scratch m !! path with
  | Some _ => set_scratch (delete path (scratch m)) m
  | None => m
  end.

(** Python's [l[start:]] for an integer [start]: a negative start counts
    from the end, and both ends are clamped. *)
Definition slice_from {A : Type} (start : Z) (l : list A) : list A :=
  let len := Z.of_nat (length l) in
  let i := if (start <? 0)%Z then Z.max (start + len) 0 else Z.min start len in
  drop (Z.to_nat i) l.

(** The entries that [MemoryStore.get_context] lists in its BUFFER section
    (block 3 of the function): the unpromoted entries of the task that are
    not dismissed, cut to [buffer[-max_buffer:]]. *)
Definition get_context_buffer (task_id : string) (max_buffer : Z)
    (m : MemoryStore) : list Buffer.record :=
  let buffer := read_buffer (Some task_id) (Some false) m in
  let buffer := filter (λ b, Buffer.dismissed b = false) buffer in
  slice_from (- max_buffer) buffer.

(** The canon slice of [MemoryStore.get_context] (block 2 of the function,
    before its items are listed): the whole canon, or, for a list of
    namespaces that is given and not empty, the entries whose full key
    starts with one of them. *)
Definition get_context_canon (canon_namespaces : option (list string))
    (m : MemoryStore) : gmap string Canon.entry :=
  let canon := read_canon None m in
  match canon_namespaces with
  | Some (ns :: rest) =>
      filter (λ kv, existsb (startswith kv.1) (ns :: rest) = true) canon
  | _ => canon
  end.

(** ** Vocabulary of the statements and scenario data *)

(** The store of a first run: only the seeded canon. *)
Definition fresh_store : MemoryStore :=
  __init__ "2026-01-01T00:00:00.000100+00:00" "2026-01-01T00:00:00.000200+00:00".

(** A store whose canon holds [facts/X] with content ["X=4"]. *)
Definition store_with_fact : MemoryStore :=
  (write_canon "2026-01-01T09:00:00+00:00" "facts" "X" "X=4" "user_confirmed"
     (0.9)%Q false fresh_store).1.

(** The seeded canon, which has [identity/system], and one more entry in
    the namespace [identity_v2]. *)
Definition store_two_namespaces : MemoryStore :=
  (write_canon "2026-01-01T09:30:00+00:00" "identity_v2" "system" "second"
     "orchestrator" (0.9)%Q false fresh_store).1.

Module Append.
(** The arguments of one [add_to_buffer] call, with what it draws. *)
Record call := {
  uuid : string;
  now : string;
  claim : string;
  source : string;
  agent : string;
  task_id : string;
  confidence : Q
}.

(** The record a call leaves in the log. *)
Definition record_of (c : call) : Buffer.record :=
  {| Buffer.id := slice_to 8 (uuid c);
     Buffer.claim := claim c;
     Buffer.source := source c;
     Buffer.agent := agent c;
     Buffer.task_id := task_id c;
     Buffer.confidence := confidence c;
     Buffer.timestamp := now c;
     Buffer.promoted := false;
     Buffer.dismissed := false |}.

Definition run (c : call) (m : MemoryStore) : MemoryStore :=
  (add_to_buffer (uuid c) (now c) (claim c) (source c) (agent c)
     (task_id c) (confidence c) m).1.

Definition run_all (calls : list call) (m : MemoryStore) : MemoryStore :=
  foldl (λ m c, run c m) m calls.
End Append.

(** A record passes the filters of a query when it equals each filter
    that is given. *)
Definition matches (task_id : option string) (promoted : option bool)
    (r : Buffer.record) : bool :=
  match task_id with
  | Some t => bool_decide (Buffer.task_id r = t)
  | None => true
  end
  && match promoted with
     | Some p => bool_decide (Buffer.promoted r = p)
     | None => true
     end.

Definition is_hex_digit (c : Ascii.ascii) : bool :=
  let n := Ascii.nat_of_ascii c in
  (Nat.leb 48 n && Nat.leb n 57) || (Nat.leb 97 n && Nat.leb n 102).

(** [c in s] for a character [c]. *)
Fixpoint char_in (c : Ascii.ascii) (s : string) : bool :=
  match s with
  | EmptyString => false
  | String d s' => Ascii.eqb c d || char_in c s'
  end.

(** The shape of [str(uuid.uuid4())]: 36 characters, groups of 8, 4, 4, 4
    and 12 lower-case hexadecimal digits separated by hyphens, the version
    digit 4 at index 14 and the variant digit 8, 9, a or b at index 19. *)
Fixpoint uuid4_chars (i : nat) (s : string) : bool :=
  match s with
  | EmptyString => Nat.eqb i 36
  | String c s' =>
      (if bool_decide (i ∈ [8; 13; 18; 23]) then char_in c "-"
       else if Nat.eqb i 14 then char_in c "4"
       else if Nat.eqb i 19 then char_in c "89ab"
       else is_hex_digit c)
      && uuid4_chars (S i) s'
  end.

Definition is_uuid4_str (s : string) : bool := uuid4_chars 0 s.

(** Two different version-4 UUIDs with the same first group. *)
Definition uuid_a : string := "1f3a9c2e-7b4d-4e1a-9c3f-2a6b8d0e4f12".
Definition uuid_b : string := "1f3a9c2e-0c5e-4f2b-8d41-3b7c9e1f5a23".

(** Entry A of the scenarios: claim ["X=5"], confidence 0.8, task ["T"]. *)
Definition call_a : Append.call :=
  {| Append.uuid := uuid_a; Append.now := "2026-01-01T10:00:00+00:00";
     Append.claim := "X=5"; Append.source := "web_search";
     Append.agent := "research"; Append.task_id := "T";
     Append.confidence := (0.8)%Q |}.

Definition call_b : Append.call :=
  {| Append.uuid := uuid_b; Append.now := "2026-01-01T10:00:05+00:00";
     Append.claim := "Y=7"; Append.source := "reasoning";
     Append.agent := "data"; Append.task_id := "T";
     Append.confidence := (0.4)%Q |}.

(** Entry A appended on a first run. *)
Definition store_a : MemoryStore := Append.run call_a fresh_store.

(** The locals [entry_id] and [full_key] of [_promote], from its input. *)
Definition promote_entry_id (inp : ToolInput.t) : string :=
  default "" (ToolInput.entry_id inp).

Definition promote_target (inp : ToolInput.t) : string :=
  full_key (default "facts" (ToolInput.namespace inp))
           (default (promote_entry_id inp) (ToolInput.key inp)).

Definition promote_confidence (inp : ToolInput.t) : Q :=
  default (0.7)%Q (ToolInput.confidence inp).

(** The decision [promote(entry_id, namespace, key, confidence)]. *)
Definition promote_decision (entry_id namespace key : string) (confidence : Q)
  : ToolInput.t :=
  {| ToolInput.entry_id := Some entry_id;
     ToolInput.namespace := Some namespace;
     ToolInput.key := Some key;
     ToolInput.confidence := Some confidence;
     ToolInput.buffer_id := None;
     ToolInput.canon_id := None;
     ToolInput.reason := None |}.

(** The decision [dismiss(entry_id, reason)]. *)
Definition dismiss_decision (entry_id reason : string) : ToolInput.t :=
  {| ToolInput.entry_id := Some entry_id;
     ToolInput.namespace := None;
     ToolInput.key := None;
     ToolInput.confidence := None;
     ToolInput.buffer_id := None;
     ToolInput.canon_id := None;
     ToolInput.reason := Some reason |}.

(** The decision [flag_conflict(A, "facts/X", "contradicts prior value")]. *)
Definition conflict_decision_a : ToolInput.t :=
  {| ToolInput.entry_id := None;
     ToolInput.namespace := None;
     ToolInput.key := None;
     ToolInput.confidence := None;
     ToolInput.buffer_id := Some "1f3a9c2e";
     ToolInput.canon_id := Some "facts/X";
     ToolInput.reason := Some "contradicts prior value" |}.

(** Entry A in the buffer, and [facts/X] already in the canon. *)
Definition store_a_conflict : MemoryStore := Append.run call_a store_with_fact.

Definition env_1 : env :=
  {| now := "2026-01-01T11:00:00+00:00";
     uuid := "9d2c4b6a-1e3f-4a5b-8c7d-0f1e2d3c4b5a" |}.

(** The entries [curate_task] selects: those of the task that are neither
    promoted nor dismissed. *)
Definition pending (task_id : string) (m : MemoryStore) : list Buffer.record :=
  filter (λ e, Buffer.dismissed e = false)
    (read_buffer (Some task_id) (Some false) m).

(** Entry A promoted into [facts/X]. *)
Definition store_a_promoted : MemoryStore :=
  (_dispatch env_1 "promote_to_canon"
     (promote_decision "1f3a9c2e" "facts" "X" (0.8)%Q) store_a).1.

(** An oracle that asks for a dismissal at every turn and never ends. *)
Definition oracle_always_dismiss (messages : list message) : response :=
  {| stop := ToolUse;
     content := [ToolUseBlock "dismiss_buffer_entry"
                   (dismiss_decision "1f3a9c2e" "speculative")] |}.

Inductive operation :=
  | OpAppend (c : Append.call)
  | OpMarkPromoted (entry_id : string)
  | OpMarkDismissed (entry_id : string)
  | OpDecision (e : env) (tool_name : string) (tool_input : ToolInput.t).

Definition run_op (o : operation) (m : MemoryStore) : MemoryStore :=
  match o with
  | OpAppend c => Append.run c m
  | OpMarkPromoted entry_id => mark_buffer_promoted entry_id m
  | OpMarkDismissed entry_id => mark_buffer_dismissed entry_id m
  | OpDecision e tool_name tool_input => (_dispatch e tool_name tool_input m).1
  end.

Definition run_ops (ops : list operation) (m : MemoryStore) : MemoryStore :=
  foldl (λ m o, run_op o m) m ops.

(** The operation asks for the promotion of id [i]: [mark_buffer_promoted]
    on it, or a promote decision naming it. *)
Definition promotes_id (i : string) (o : operation) : bool :=
  match o with
  | OpMarkPromoted j => bool_decide (j = i)
  | OpDecision _ tool_name inp =>
      bool_decide (tool_name = "promote_to_canon")
      && bool_decide (promote_entry_id inp = i)
  | _ => false
  end.

(** The operation asks for the dismissal of id [i]. *)
Definition dismisses_id (i : string) (o : operation) : bool :=
  match o with
  | OpMarkDismissed j => bool_decide (j = i)
  | OpDecision _ tool_name inp =>
      bool_decide (tool_name = "dismiss_buffer_entry")
      && bool_decide (default "" (ToolInput.entry_id inp) = i)
  | _ => false
  end.

(** Every flag found in the buffer was asked for by one of [ops]. *)
Definition flags_requested (ops : list operation) (m : MemoryStore) : Prop :=
  ∀ r, r ∈ buffer m →
    (Buffer.promoted r = true → existsb (promotes_id (Buffer.id r)) ops = true)
    ∧ (Buffer.dismissed r = true → existsb (dismisses_id (Buffer.id r)) ops = true).

(** An entry of another task, with a claim outside ASCII. *)
Definition call_u : Append.call :=
  {| Append.uuid := "c4d5e6f7-3b2a-4c1d-9e8f-7a6b5c4d3e2f";
     Append.now := "2026-01-01T10:00:07+00:00";
     Append.claim := "prix : 5 €"; Append.source := "user_input";
     Append.agent := "data"; Append.task_id := "U";
     Append.confidence := (0.9)%Q |}.

(** A second entry of task ["T"], with an id of its own. *)
Definition call_c : Append.call :=
  {| Append.uuid := "7e8d9c0b-2a4c-4d6e-a8f0-1b3d5f7a9c2e";
     Append.now := "2026-01-01T10:00:09+00:00";
     Append.claim := "maybe Z is large"; Append.source := "reasoning";
     Append.agent := "writing"; Append.task_id := "T";
     Append.confidence := (0.3)%Q |}.

Definition store_a_c : MemoryStore := Append.run call_c store_a.

(** An oracle that answers the prompt with two tool calls and ends its
    turn once it has their results. *)
Definition oracle_one_round (messages : list message) : response :=
  match messages with
  | [Prompt _ _ _] =>
      {| stop := ToolUse;
         content :=
           [TextBlock "Reviewing two entries.";
            ToolUseBlock "promote_to_canon"
              (promote_decision "1f3a9c2e" "facts" "X" (0.8)%Q);
            ToolUseBlock "dismiss_buffer_entry"
              (dismiss_decision "7e8d9c0b" "speculative")] |}
  | _ => {| stop := EndTurn; content := [TextBlock "Promoted 1, dismissed 1."] |}
  end.

(** The character ["_"] that [scratch_file] puts between agent and task. *)
Definition underscore : Ascii.ascii := Ascii.ascii_of_nat 95.

(** Record [r'] is record [r] with, at most, flags raised: every field
    but the two flags is the same, and a flag set in [r] is set in [r']. *)
Definition flags_raised (r r' : Buffer.record) : Prop :=
  Buffer.id r' = Buffer.id r ∧ Buffer.claim r' = Buffer.claim r
  ∧ Buffer.source r' = Buffer.source r ∧ Buffer.agent r' = Buffer.agent r
  ∧ Buffer.task_id r' = Buffer.task_id r
  ∧ Buffer.confidence r' = Buffer.confidence r
  ∧ Buffer.timestamp r' = Buffer.timestamp r
  ∧ (Buffer.promoted r = true → Buffer.promoted r' = true)
  ∧ (Buffer.dismissed r = true → Buffer.dismissed r' = true).

(** An oracle whose answer is cut off (a stop reason that is neither
    [end_turn] nor [tool_use]) while it still carries a tool call. *)
Definition oracle_cut_off (messages : list message) : response :=
  {| stop := OtherStop;
     content := [TextBlock "Dismissing";
                 ToolUseBlock "dismiss_buffer_entry"
                   (dismiss_decision "1f3a9c2e" "speculative")] |}.

(** The disputes of [m'] are those of [m] followed by unresolved ones, and
    tasks and scratch are the same. *)
Definition rest_kept (m m' : MemoryStore) : Prop :=
  (∃ new, disputes m' = disputes m ++ new
          ∧ Forall (λ d, Dispute.resolved d = false) new)
  ∧ tasks m' = tasks m ∧ scratch m' = scratch m.

(** ** Inputs on which the store keeps what it is given *)

(** [sub in s] for strings. *)
Fixpoint has_substring (sub s : string) : bool :=
  startswith s sub
  || match s with
     | EmptyString => false
     | String _ s' => has_substring sub s'
     end.

(** The UTF-8 forms of U+0085, U+2028 and U+2029: the characters at which
    [str.splitlines] cuts and which [json.dumps(..., ensure_ascii=False)]
    writes as they are (it escapes the control characters below U+0020). *)
Definition next_line : string :=
  String (Ascii.ascii_of_nat 194) (String (Ascii.ascii_of_nat 133) "").
Definition line_separator : string :=
  String (Ascii.ascii_of_nat 226)
    (String (Ascii.ascii_of_nat 128) (String (Ascii.ascii_of_nat 168) "")).
Definition paragraph_separator : string :=
  String (Ascii.ascii_of_nat 226)
    (String (Ascii.ascii_of_nat 128) (String (Ascii.ascii_of_nat 169) "")).

(** A string that [_append_jsonl] writes on one line that [_read_jsonl]
    reads back whole: it holds none of the three characters above.  A
    record with another string is written as a line that is cut on
    reading and is not read back; [add_to_buffer] and [add_dispute] are
    the code's on records whose strings are all of this kind. *)
Definition line_safe (s : string) : bool :=
  negb (has_substring next_line s)
  && negb (has_substring line_separator s)
  && negb (has_substring paragraph_separator s).

(** Every string of a buffer record is read back from its line. *)
Definition record_line_safe (r : Buffer.record) : bool :=
  forallb line_safe
    [Buffer.id r; Buffer.claim r; Buffer.source r; Buffer.agent r;
     Buffer.task_id r; Buffer.timestamp r].

(** Every string of a dispute record is read back from its line. *)
Definition dispute_line_safe (d : Dispute.record) : bool :=
  forallb line_safe
    [Dispute.id d; Dispute.buffer_id d; Dispute.canon_id d;
     Dispute.reason d; Dispute.timestamp d].

(** A number that [float(x)] returns as it is: [x] is a float already, or
    an integer of magnitude at most 2^53, all of which are doubles.  A
    larger integer is rounded by [float], or refused with OverflowError. *)
Definition float_exact (q : Q) : bool :=
  Qle_bool (- 9007199254740992 # 1) q && Qle_bool q (9007199254740992 # 1).

(** The confidence of a tool input is absent (the code then takes the
    float 0.7) or is returned as it is by the [float(...)] with which
    [_promote] starts; [_promote] is the code's on such inputs. *)
Definition confidence_accepted (inp : ToolInput.t) : bool :=
  match ToolInput.confidence inp with
  | Some q => float_exact q
  | None => true
  end.

(** A name that is one component of a path, which [base / "scratch" / name]
    keeps as it is: no ["/"], no NUL, at most 255 bytes.  [write_scratch],
    [read_scratch] and [clear_scratch] are the code's on scratch file
    names of this kind; another name is a path that leaves [scratch/] or
    that cannot be opened. *)
Definition plain_file_name (name : string) : bool :=
  negb (char_in (Ascii.ascii_of_nat 47) name)
  && negb (char_in (Ascii.ascii_of_nat 0) name)
  && Nat.leb (String.length name) 255.

(** * Properties *)

(** ** Strings *)

Lemma startswith_app (p r : string) : startswith (p +:+ r) p = true.
Proof.
  induction p as [|c p IH]; simpl; [done|].
  by rewrite Ascii.eqb_refl.
Qed.

Lemma startswith_inv (s p : string) :
  startswith s p = true → ∃ r, s = p +:+ r.
Proof.
  revert s. induction p as [|c p IH]; intros s H; simpl in *.
  - by exists s.
  - destruct s as [|d s]; [done|].
    destruct (Ascii.eqb d c) eqn:E; [|done].
    apply Ascii.eqb_eq in E as ->.
    destruct (IH _ H) as [r ->]. by exists r.
Qed.

(** [startswith] is the prefix relation on strings. *)
Lemma startswith_spec (s p : string) :
  startswith s p = true ↔ ∃ r, s = p +:+ r.
Proof.
  split; [apply startswith_inv|].
  intros [r ->]. apply startswith_app.
Qed.

Lemma startswith_full_key (ns k : string) : startswith (full_key ns k) ns = true.
Proof. apply startswith_app. Qed.

Example startswith_longer_namespace :
  startswith "identity_v2/system" "identity" = true
  ∧ startswith "standards/memory_rules" "identity" = false
  ∧ startswith "id" "identity" = false
  ∧ startswith "identity/system" "" = true.
Proof. by split_and!. Qed.

Example slice_to_uuid :
  slice_to 8 "1f3a9c2e-7b4d-4e1a-9c3f-2a6b8d0e4f12" = "1f3a9c2e"
  ∧ slice_to 8 "1f3a" = "1f3a".
Proof. by split. Qed.

Example line_safe_examples :
  line_safe "prix : 5 €" = true
  ∧ line_safe ("x" +:+ line_separator +:+ "y") = false
  ∧ line_safe ("x" +:+ next_line) = false
  ∧ line_safe paragraph_separator = false.
Proof. by split_and!; vm_compute. Qed.

Example float_exact_examples :
  float_exact (0.8)%Q = true
  ∧ float_exact (9007199254740992 # 1) = true
  ∧ float_exact (9007199254740993 # 1) = false
  ∧ float_exact (- 9007199254740993 # 1) = false.
Proof. by split_and!; vm_compute. Qed.

Example plain_file_name_examples :
  plain_file_name (scratch_file "research" "T") = true
  ∧ plain_file_name (scratch_file "research" "a/b") = false
  ∧ plain_file_name (scratch_file "./research" "T") = false.
Proof. by split_and!; vm_compute. Qed.

Example is_uuid4_str_shape :
  is_uuid4_str "1f3a9c2e-7b4d-4e1a-9c3f-2a6b8d0e4f12" = true
  ∧ is_uuid4_str "1f3a9c2e-7b4d-1e1a-9c3f-2a6b8d0e4f12" = false
  ∧ is_uuid4_str "1f3a9c2e-7b4d-4e1a-7c3f-2a6b8d0e4f12" = false
  ∧ is_uuid4_str "1f3a9c2e7b4d4e1a9c3f2a6b8d0e4f12" = false
  ∧ is_uuid4_str "1F3A9C2E-7B4D-4E1A-9C3F-2A6B8D0E4F12" = false
  ∧ is_uuid4_str "1f3a9c2e-7b4d-4e1a-9c3f-2a6b8d0e4f1" = false.
Proof. by split_and!; vm_compute. Qed.

(** ** Canon reads *)

Lemma read_canon_lookup (ns k : string) (m : MemoryStore) (v : Canon.entry) :
  read_canon (Some ns) m !! k = Some v
  ↔ canon m !! k = Some v ∧ startswith k ns = true.
Proof.
  unfold read_canon. destruct ns as [|c ns]; simpl.
  - split; [by intros | by intros [? _]].
  - by rewrite map_lookup_filter_Some.
Qed.

(** The namespace slice agrees with the whole map on the keys of that
    namespace, which is what [_promote] looks up. *)
Lemma read_canon_full_key (ns k : string) (m : MemoryStore) :
  read_canon (Some ns) m !! full_key ns k = canon m !! full_key ns k.
Proof.
  apply option_eq. intros v. rewrite read_canon_lookup.
  pose proof (startswith_full_key ns k). split; [by intros [? _] | by intros].
Qed.

(** ** Canon writes *)

(** C1, counterexample: [facts/X] is present with content ["X=4"]; a second
    [write_canon] on the same namespace and key returns the key as any
    successful write does, and the stored content is now ["X=5"]. *)
Lemma write_canon_overwrites :
  Canon.content <$> canon store_with_fact !! full_key "facts" "X" = Some "X=4"
  ∧ (write_canon "2026-01-02T00:00:00+00:00" "facts" "X" "X=5" "orchestrator"
       (0.9)%Q false store_with_fact).2 = "facts/X"
  ∧ Canon.content <$>
      canon (write_canon "2026-01-02T00:00:00+00:00" "facts" "X" "X=5"
               "orchestrator" (0.9)%Q false store_with_fact).1
        !! full_key "facts" "X" = Some "X=5".
Proof. split_and!; vm_compute; reflexivity. Qed.

(** C1, as the code has it: [write_canon] has no failure path.  Whether or
    not the pair (namespace, key) is already present, the call returns the
    full key, the entry stored under it afterwards is the one just written
    (an existing entry is replaced), every other key keeps its entry, and
    no other part of the store changes. *)
Theorem write_canon_upserts now ns k c s conf cb m :
  ∃ m', write_canon now ns k c s conf cb m = (m', full_key ns k)
    ∧ canon m' !! full_key ns k
      = Some {| Canon.content := c; Canon.source := s;
                Canon.confidence := conf; Canon.confirmed_by_user := cb;
                Canon.last_verified := now; Canon.namespace := ns |}
    ∧ (∀ k', k' ≠ full_key ns k → canon m' !! k' = canon m !! k')
    ∧ buffer m' = buffer m ∧ disputes m' = disputes m
    ∧ tasks m' = tasks m ∧ scratch m' = scratch m.
Proof.
  eexists. split; [reflexivity|]. split_and!; try done.
  - apply lookup_insert_eq.
  - intros k' Hne. simpl. by rewrite lookup_insert_ne.
Qed.

(** C10: a namespace-filtered [read_canon] selects by prefix of the full
    key: an entry is returned iff it is stored and its full key starts
    with the argument.  Hence reading namespace ["identity"] also returns
    the entries of namespace ["identity_v2"]. *)
Theorem read_canon_prefix_match (m : MemoryStore) (ns : string) :
  (∀ k v, read_canon (Some ns) m !! k = Some v
          ↔ canon m !! k = Some v ∧ ∃ rest, k = ns +:+ rest)
  ∧ (∀ key v, canon m !! full_key "identity_v2" key = Some v →
              read_canon (Some "identity") m !! full_key "identity_v2" key = Some v).
Proof.
  split.
  - intros k v. by rewrite read_canon_lookup, startswith_spec.
  - intros key v Hv. apply read_canon_lookup. split; [done|].
    apply (startswith_app "identity" ("_v2/" +:+ key)).
Qed.

Lemma read_canon_prefix_match_witness :
  Canon.content <$>
    read_canon (Some "identity") store_two_namespaces !! "identity_v2/system"
  = Some "second".
Proof.
  destruct (read_canon_prefix_match store_two_namespaces "identity") as [_ H].
  destruct (canon store_two_namespaces !! full_key "identity_v2" "system")
    as [v|] eqn:E; [|vm_compute in E; discriminate E].
  change "identity_v2/system" with (full_key "identity_v2" "system").
  rewrite (H "system" v E).
  vm_compute in E. injection E as <-. reflexivity.
Defined.

(** ** Buffer flags *)

Lemma set_buffer_same (m : MemoryStore) : set_buffer (buffer m) m = m.
Proof. by destruct m. Qed.

Lemma rewrite_buffer_id_on (f : Buffer.record → Buffer.record) (m : MemoryStore) :
  (∀ r, r ∈ buffer m → f r = r) → _rewrite_buffer f m = m.
Proof.
  intros Hf. transitivity (set_buffer (buffer m) m); [|apply set_buffer_same].
  unfold _rewrite_buffer. f_equal.
  transitivity (id <$> buffer m); [|apply list_fmap_id].
  apply list_fmap_ext. intros i r Hi. apply Hf.
  by apply list_elem_of_lookup_2 in Hi.
Qed.

Lemma rewrite_buffer_twice (f : Buffer.record → Buffer.record) (m : MemoryStore) :
  (∀ r, f (f r) = f r) →
  _rewrite_buffer f (_rewrite_buffer f m) = _rewrite_buffer f m.
Proof.
  intros Hf. unfold _rewrite_buffer, set_buffer. simpl. f_equal.
  rewrite <- list_fmap_compose. apply list_fmap_ext. intros i r _. apply Hf.
Qed.

(** C7: marking an id that no record of the buffer carries leaves the
    whole store as it was (nothing raised, nothing created, no record
    touched), and marking any id twice gives the store that marking it
    once gives. *)
Theorem mark_buffer_tolerant_idempotent (entry_id : string) (m : MemoryStore) :
  ((∀ r, r ∈ buffer m → Buffer.id r ≠ entry_id) →
     mark_buffer_promoted entry_id m = m ∧ mark_buffer_dismissed entry_id m = m)
  ∧ mark_buffer_promoted entry_id (mark_buffer_promoted entry_id m)
    = mark_buffer_promoted entry_id m
  ∧ mark_buffer_dismissed entry_id (mark_buffer_dismissed entry_id m)
    = mark_buffer_dismissed entry_id m.
Proof.
  split_and!.
  - intros Habsent.
    split; apply rewrite_buffer_id_on; intros r Hr;
      by rewrite decide_False by by apply Habsent.
  - apply rewrite_buffer_twice. intros r.
    destruct (decide (Buffer.id r = entry_id)) as [Heq|Hne]; simpl.
    + by rewrite decide_True.
    + by rewrite decide_False.
  - apply rewrite_buffer_twice. intros r.
    destruct (decide (Buffer.id r = entry_id)) as [Heq|Hne]; simpl.
    + by rewrite decide_True.
    + by rewrite decide_False.
Qed.

Lemma mark_buffer_tolerant_idempotent_witness :
  mark_buffer_promoted "00000000" store_a = store_a
  ∧ mark_buffer_dismissed "00000000" store_a = store_a.
Proof.
  apply (proj1 (mark_buffer_tolerant_idempotent "00000000" store_a)).
  intros r Hr. apply list_elem_of_singleton in Hr as ->. discriminate.
Defined.

(** ** Buffer appends and reads *)

Lemma run_all_buffer (calls : list Append.call) (m : MemoryStore) :
  buffer (Append.run_all calls m) = buffer m ++ (Append.record_of <$> calls).
Proof.
  revert m. induction calls as [|c calls IH]; intros m; simpl.
  - by rewrite app_nil_r.
  - unfold Append.run_all in *. simpl. rewrite IH. simpl.
    by rewrite <- app_assoc.
Qed.

Lemma read_buffer_filter (task_id : option string) (promoted : option bool)
    (m : MemoryStore) :
  read_buffer task_id promoted m
  = filter (λ r, matches task_id promoted r = true) (buffer m).
Proof.
  unfold read_buffer, matches.
  destruct task_id as [t|], promoted as [p|]; simpl.
  - rewrite list_filter_filter. apply list_filter_iff. intros r.
    rewrite andb_true_iff, !bool_decide_eq_true. tauto.
  - apply list_filter_iff. intros r.
    rewrite andb_true_r, bool_decide_eq_true. tauto.
  - apply list_filter_iff. intros r. by rewrite bool_decide_eq_true.
  - induction (buffer m) as [|r l IH]; [done|].
    by rewrite filter_cons_True, <- IH.
Qed.

(** C8: after any sequence of appends of records whose strings are read
    back from their line, a query returns the records that equal each
    given filter, those already in the log first and then the appended
    ones in the order of the calls. *)
Theorem read_buffer_append_order (calls : list Append.call)
    (task_id : option string) (promoted : option bool) (m : MemoryStore) :
  Forall (λ c, record_line_safe (Append.record_of c) = true) calls →
  read_buffer task_id promoted (Append.run_all calls m)
  = filter (λ r, matches task_id promoted r = true) (buffer m)
    ++ filter (λ r, matches task_id promoted r = true)
         (Append.record_of <$> calls).
Proof. intros _. by rewrite read_buffer_filter, run_all_buffer, filter_app. Qed.

Lemma read_buffer_append_order_witness :
  Buffer.claim <$>
    read_buffer (Some "T") (Some false)
      (Append.run_all [call_a; call_u; call_c] fresh_store)
  = ["X=5"; "maybe Z is large"].
Proof.
  rewrite (read_buffer_append_order [call_a; call_u; call_c]).
  - reflexivity.
  - repeat constructor.
Defined.

(** C9, counterexample: the random source returns two different UUIDs
    that agree on their first eight digits; both appends succeed and the
    second returns the id the first one returned. *)
Lemma add_to_buffer_id_collision :
  is_uuid4_str uuid_a = true ∧ is_uuid4_str uuid_b = true ∧ uuid_a ≠ uuid_b
  ∧ (add_to_buffer uuid_a (Append.now call_a) "X=5" "web_search" "research"
       "T" (0.8)%Q fresh_store).2 = "1f3a9c2e"
  ∧ (add_to_buffer uuid_b (Append.now call_b) "Y=7" "reasoning" "data"
       "T" (0.4)%Q store_a).2 = "1f3a9c2e"
  ∧ Buffer.id <$> buffer (Append.run call_b store_a) = ["1f3a9c2e"; "1f3a9c2e"].
Proof. split_and!; try (vm_compute; reflexivity). discriminate. Qed.

(** C9, as the code has it: [add_to_buffer] has no failure path and does
    not look at the claim; it returns the id of the record it writes, the
    first eight characters of the UUID drawn, and when the strings of that
    record are read back from their line the log gains this one pending
    record at its end.  The ids of the log stay pairwise distinct exactly
    when they were and no earlier record carries these eight characters. *)
Theorem add_to_buffer_appends uuid now claim source agent task_id conf m :
  forallb line_safe [slice_to 8 uuid; claim; source; agent; task_id; now]
  = true →
  ∃ m' r,
    add_to_buffer uuid now claim source agent task_id conf m
    = (m', slice_to 8 uuid)
    ∧ buffer m' = buffer m ++ [r]
    ∧ Buffer.id r = slice_to 8 uuid ∧ Buffer.claim r = claim
    ∧ Buffer.task_id r = task_id
    ∧ Buffer.promoted r = false ∧ Buffer.dismissed r = false
    ∧ canon m' = canon m ∧ disputes m' = disputes m
    ∧ (NoDup (Buffer.id <$> buffer m')
       ↔ NoDup (Buffer.id <$> buffer m)
         ∧ slice_to 8 uuid ∉ (Buffer.id <$> buffer m)).
Proof.
  intros _.
  eexists _, _. split; [reflexivity|]. split; [reflexivity|].
  split_and!; try done. simpl.
  rewrite fmap_app, NoDup_app. simpl. split.
  - intros (Hnd & Hfresh & _). split; [done|].
    intros Hin. apply (Hfresh _ Hin). by apply list_elem_of_singleton.
  - intros [Hnd Hfresh]. split_and!; [done| |apply NoDup_singleton].
    intros x Hx ->%list_elem_of_singleton. done.
Qed.

Lemma add_to_buffer_appends_witness :
  ∃ m' r,
    add_to_buffer (Append.uuid call_u) (Append.now call_u) "prix : 5 €"
      "user_input" "data" "U" (0.9)%Q store_a = (m', "c4d5e6f7")
    ∧ buffer m' = buffer store_a ++ [r]
    ∧ Buffer.claim r = "prix : 5 €".
Proof.
  destruct (add_to_buffer_appends (Append.uuid call_u) (Append.now call_u)
              "prix : 5 €" "user_input" "data" "U" (0.9)%Q store_a)
    as (m' & r & Hrun & Hbuf & _ & Hclaim & _).
  - reflexivity.
  - exists m', r. split; [exact Hrun|]. split; [exact Hbuf|exact Hclaim].
Defined.

(** ** Promote decisions *)

Lemma promote_not_found now inp m :
  find_entry (promote_entry_id inp) (buffer m) = None →
  _promote now inp m = (m, NotFound (promote_entry_id inp)).
Proof.
  intros Hfind. unfold _promote, promote_entry_id in *. simpl.
  by rewrite Hfind.
Qed.

Lemma promote_conflict now inp m e :
  find_entry (promote_entry_id inp) (buffer m) = Some e →
  is_Some (canon m !! promote_target inp) →
  _promote now inp m = (m, AlreadyExists (promote_target inp)).
Proof.
  intros Hfind Hex. unfold _promote, promote_target, promote_confidence, promote_entry_id in *.
  cbv zeta. change (read_buffer None None m) with (buffer m).
  rewrite Hfind, read_canon_full_key. by rewrite decide_True.
Qed.

Lemma promote_success now inp m e :
  find_entry (promote_entry_id inp) (buffer m) = Some e →
  canon m !! promote_target inp = None →
  _promote now inp m
  = (mark_buffer_promoted (promote_entry_id inp)
       (write_canon now (default "facts" (ToolInput.namespace inp))
          (default (promote_entry_id inp) (ToolInput.key inp))
          (Buffer.claim e) (provenance e) (promote_confidence inp) false m).1,
     Promoted (promote_entry_id inp) (promote_target inp)
       (promote_confidence inp)).
Proof.
  intros Hfind Hfree. unfold _promote, promote_target, promote_confidence, promote_entry_id in *.
  cbv zeta. change (read_buffer None None m) with (buffer m).
  rewrite Hfind, read_canon_full_key, Hfree.
  rewrite decide_False; [done|]. by intros [? ?].
Qed.

(** A promote decision on an occupied key changes nothing, whether or not
    its entry id resolves. *)
Lemma promote_occupied_frame now inp m :
  is_Some (canon m !! promote_target inp) → (_promote now inp m).1 = m.
Proof.
  intros Hex.
  destruct (find_entry (promote_entry_id inp) (buffer m)) as [e|] eqn:Hfind.
  - by rewrite (promote_conflict _ _ _ _ Hfind Hex).
  - by rewrite (promote_not_found _ _ _ Hfind).
Qed.

Lemma find_entry_mark_promoted (i j : string) (l : list Buffer.record) :
  find_entry i
    ((λ r, if decide (Buffer.id r = j) then Buffer.with_promoted r else r) <$> l)
  = (λ r, if decide (Buffer.id r = j) then Buffer.with_promoted r else r)
      <$> find_entry i l.
Proof.
  set (f := λ r, if decide (Buffer.id r = j) then Buffer.with_promoted r else r).
  assert (Hid : ∀ r, Buffer.id (f r) = Buffer.id r).
  { intros r. unfold f. by destruct (decide (Buffer.id r = j)). }
  unfold find_entry. induction l as [|r l IH]; [done|].
  rewrite fmap_cons, (filter_cons _ (f r)), (filter_cons _ r), Hid.
  destruct (decide (Buffer.id r = i)); [done|exact IH].
Qed.

Lemma mark_promoted_flag (j : string) (m : MemoryStore) (r : Buffer.record) :
  r ∈ buffer (mark_buffer_promoted j m) → Buffer.id r = j →
  Buffer.promoted r = true.
Proof.
  simpl. intros (r0 & -> & _)%list_elem_of_fmap.
  destruct (decide (Buffer.id r0 = j)); [done|]. by intros ?.
Qed.

(** C3: a promote decision whose target key is present in the canon, with
    a confidence that [float] returns as it is, returns the store as it
    was: the canon is not written and no buffer flag changes.  When its
    entry id resolves to a buffer entry, the reply is the rejection that
    points to [flag_conflict] and the entry is found afterwards exactly as
    before; an id that resolves to nothing gets the not-found reply. *)
Theorem promote_existing_key_rejected now inp m :
  confidence_accepted inp = true →
  is_Some (canon m !! promote_target inp) →
  ∃ msg,
    _promote now inp m = (m, msg)
    ∧ (∀ a, find_entry (promote_entry_id inp) (buffer m) = Some a →
         msg = AlreadyExists (promote_target inp)
         ∧ (∀ py_repr fmt_2f,
              render py_repr fmt_2f msg
              = "[Curator] Canon[" +:+ promote_target inp
                +:+ "] already exists. Use flag_conflict if there is a discrepancy.")
         ∧ find_entry (promote_entry_id inp) (buffer (_promote now inp m).1)
           = Some a)
    ∧ (find_entry (promote_entry_id inp) (buffer m) = None →
       msg = NotFound (promote_entry_id inp)).
Proof.
  intros _ Hex.
  destruct (find_entry (promote_entry_id inp) (buffer m)) as [a|] eqn:Hfind.
  - exists (AlreadyExists (promote_target inp)).
    rewrite (promote_conflict _ _ _ _ Hfind Hex).
    split; [done|]. split; [|done].
    intros a' [= <-]. by split_and!.
  - exists (NotFound (promote_entry_id inp)).
    rewrite (promote_not_found _ _ _ Hfind). by split_and!.
Qed.

Lemma promote_existing_key_rejected_witness :
  _promote (now env_1) (promote_decision "1f3a9c2e" "facts" "X" (0.8)%Q)
    store_a_conflict
  = (store_a_conflict, AlreadyExists "facts/X").
Proof.
  destruct (promote_existing_key_rejected (now env_1)
              (promote_decision "1f3a9c2e" "facts" "X" (0.8)%Q)
              store_a_conflict)
    as (msg & Hrun & Hfound & _).
  - reflexivity.
  - eexists. vm_compute. reflexivity.
  - destruct (Hfound (Append.record_of call_a)) as (-> & _); [reflexivity|].
    exact Hrun.
Defined.

Lemma find_entry_id (i : string) (l : list Buffer.record) (e : Buffer.record) :
  find_entry i l = Some e → Buffer.id e = i ∧ e ∈ l.
Proof.
  intros H%head_Some_elem_of. by apply list_elem_of_filter in H.
Qed.

(** With pairwise distinct ids, an id resolves to the record carrying it. *)
Lemma find_entry_unique (l : list Buffer.record) (a : Buffer.record) :
  NoDup (Buffer.id <$> l) → a ∈ l → find_entry (Buffer.id a) l = Some a.
Proof.
  unfold find_entry. induction l as [|r l IH]; intros Hnd Hin.
  - by apply elem_of_nil in Hin.
  - rewrite fmap_cons in Hnd. apply NoDup_cons in Hnd as [Hfresh Hnd].
    apply elem_of_cons in Hin as [->|Hin].
    + by rewrite filter_cons_True.
    + rewrite filter_cons_False; [by apply IH|].
      intros Heq. apply Hfresh. rewrite Heq. by apply list_elem_of_fmap_2.
Qed.

Lemma dispatch_promote e inp m :
  _dispatch e "promote_to_canon" inp m = _promote (now e) inp m.
Proof. unfold _dispatch. by rewrite decide_True. Qed.

Lemma dispatch_dismiss e inp m :
  _dispatch e "dismiss_buffer_entry" inp m = _dismiss inp m.
Proof. reflexivity. Qed.

(** C4: entry A, with claim ["X=5"], is what id [A] resolves to in the
    buffer and the canon has no [facts/X]; applying the decision
    [promote(A, "facts", "X", 0.8)] leaves [facts/X] in the canon with
    content ["X=5"] and entry A (every record carrying its id) promoted. *)
Theorem promote_scenario (e : env) (m : MemoryStore) (A : string)
    (a : Buffer.record) :
  find_entry A (buffer m) = Some a →
  Buffer.claim a = "X=5" →
  canon m !! "facts/X" = None →
  ∃ m' msg,
    _dispatch e "promote_to_canon" (promote_decision A "facts" "X" (0.8)%Q) m
    = (m', msg)
    ∧ Canon.content <$> canon m' !! "facts/X" = Some "X=5"
    ∧ find_entry A (buffer m') = Some (Buffer.with_promoted a)
    ∧ (∀ r, r ∈ buffer m' → Buffer.id r = A → Buffer.promoted r = true).
Proof.
  intros Hfind Hclaim Hfree.
  eexists _, _. split.
  { rewrite dispatch_promote. by apply promote_success with (e := a). }
  split_and!.
  - simpl. change "facts/X" with (full_key "facts" "X").
    by rewrite lookup_insert_eq, <- Hclaim.
  - simpl. unfold promote_entry_id. simpl.
    rewrite find_entry_mark_promoted, Hfind. simpl.
    destruct (find_entry_id _ _ _ Hfind) as [Hid _].
    by rewrite decide_True.
  - intros r Hr Hid. eapply mark_promoted_flag; [exact Hr|exact Hid].
Qed.

Lemma promote_scenario_witness :
  Canon.content <$>
    canon (_dispatch env_1 "promote_to_canon"
             (promote_decision "1f3a9c2e" "facts" "X" (0.8)%Q) store_a).1
      !! "facts/X" = Some "X=5"
  ∧ Buffer.promoted <$>
      find_entry "1f3a9c2e"
        (buffer (_dispatch env_1 "promote_to_canon"
                   (promote_decision "1f3a9c2e" "facts" "X" (0.8)%Q) store_a).1)
    = Some true.
Proof.
  destruct (promote_scenario env_1 store_a "1f3a9c2e" (Append.record_of call_a))
    as (m' & msg & Hrun & Hcanon & Hentry & _).
  - reflexivity.
  - reflexivity.
  - reflexivity.
  - rewrite Hrun. simpl. rewrite Hcanon, Hentry. split; reflexivity.
Defined.

(** C5, counterexample: entry [1f3a9c2e] has source ["web_search"]; its
    promotion succeeds and the canon entry's source is built from the
    entry's source field, not from its id. *)
Lemma promote_provenance_not_entry_id :
  (_promote (now env_1) (promote_decision "1f3a9c2e" "facts" "X" (0.8)%Q)
     store_a).2 = Promoted "1f3a9c2e" "facts/X" (0.8)%Q
  ∧ Canon.source <$>
      canon (_promote (now env_1)
               (promote_decision "1f3a9c2e" "facts" "X" (0.8)%Q) store_a).1
        !! "facts/X" = Some "buffer:web_search|curator_promoted"
  ∧ "buffer:web_search|curator_promoted"
    ≠ "buffer:" +:+ "1f3a9c2e" +:+ "|curator_promoted".
Proof. split_and!; try (vm_compute; reflexivity). discriminate. Qed.

(** C5, as the code has it: when a promote decision succeeds, the canon
    entry written under the returned key has as source the text
    ["buffer:<source>|curator_promoted"], where <source> is the source
    field of the buffer entry the id resolves to, and as content that
    entry's claim. *)
Theorem promoted_entry_provenance now inp m m' entry_id canon_id conf :
  _promote now inp m = (m', Promoted entry_id canon_id conf) →
  ∃ a ce,
    find_entry entry_id (buffer m) = Some a
    ∧ canon m' !! canon_id = Some ce
    ∧ Canon.source ce = "buffer:" +:+ Buffer.source a +:+ "|curator_promoted"
    ∧ Canon.content ce = Buffer.claim a.
Proof.
  intros Hrun.
  destruct (find_entry (promote_entry_id inp) (buffer m)) as [a|] eqn:Hfind;
    [|by rewrite (promote_not_found _ _ _ Hfind) in Hrun].
  destruct (canon m !! promote_target inp) as [old|] eqn:Hold.
  { rewrite (promote_conflict _ _ _ _ Hfind) in Hrun; [done|by eexists]. }
  rewrite (promote_success _ _ _ _ Hfind Hold) in Hrun.
  injection Hrun as <- <- <- <-.
  eexists a, _. split; [done|].
  split; [simpl; apply lookup_insert_eq|]. done.
Qed.

Lemma promoted_entry_provenance_witness :
  ∃ ce,
    canon (_promote (now env_1)
             (promote_decision "1f3a9c2e" "facts" "X" (0.8)%Q) store_a).1
      !! "facts/X" = Some ce
    ∧ Canon.source ce = "buffer:web_search|curator_promoted".
Proof.
  destruct (promoted_entry_provenance (now env_1)
              (promote_decision "1f3a9c2e" "facts" "X" (0.8)%Q) store_a
              (_promote (now env_1)
                 (promote_decision "1f3a9c2e" "facts" "X" (0.8)%Q) store_a).1
              "1f3a9c2e" "facts/X" (0.8)%Q)
    as (a & ce & Hfind & Hce & Hsrc & _).
  - reflexivity.
  - exists ce. split; [exact Hce|].
    rewrite Hsrc. vm_compute in Hfind. injection Hfind as <-. reflexivity.
Defined.

(** ** Curation of a task *)

Lemma pending_elem (task_id : string) (m : MemoryStore) (r : Buffer.record) :
  r ∈ pending task_id m
  ↔ r ∈ buffer m ∧ Buffer.task_id r = task_id
    ∧ Buffer.promoted r = false ∧ Buffer.dismissed r = false.
Proof.
  unfold pending, read_buffer.
  rewrite !list_elem_of_filter. tauto.
Qed.

Lemma curate_task_no_pending fuel oracle world task_id m :
  pending task_id m = [] →
  curate_task fuel oracle world task_id m
  = Some (m, "[Curator] No buffer entries to curate for task " +:+ task_id +:+ ".").
Proof.
  unfold curate_task, pending. by intros ->.
Qed.

(** One round of curation on two pending entries, then a second call on
    the same task. *)
Example curate_task_one_round :
  (λ r, (Buffer.id r, Buffer.promoted r, Buffer.dismissed r)) <$> pending "T" store_a_c
  = [("1f3a9c2e", false, false); ("7e8d9c0b", false, false)]
  ∧ curate_task 1 oracle_one_round (λ _, env_1) "T" store_a_c = None
  ∧ ∃ m',
      curate_task 2 oracle_one_round (λ _, env_1) "T" store_a_c
      = Some (m', "Promoted 1, dismissed 1.")
      ∧ (λ r, (Buffer.id r, Buffer.promoted r, Buffer.dismissed r)) <$> buffer m'
        = [("1f3a9c2e", true, false); ("7e8d9c0b", false, true)]
      ∧ Canon.content <$> canon m' !! "facts/X" = Some "X=5"
      ∧ curate_task 0 oracle_one_round (λ _, env_1) "T" m'
        = Some (m', "[Curator] No buffer entries to curate for task T.").
Proof.
  split; [by vm_compute|]. split; [by vm_compute|].
  eexists. split; [by vm_compute|]. by split_and!; vm_compute.
Qed.

(** C6: when every buffer entry of the task is promoted or dismissed (or
    the task has none), [curate_task] returns, whatever the oracle and
    however many turns it is allowed, the no-op summary together with the
    store it was given: canon, buffer, disputes, tasks and scratch are
    the same. *)
Theorem curate_task_nothing_pending fuel oracle world task_id m :
  (∀ r, r ∈ buffer m → Buffer.task_id r = task_id →
        Buffer.promoted r = true ∨ Buffer.dismissed r = true) →
  ∃ m',
    curate_task fuel oracle world task_id m
    = Some (m', "[Curator] No buffer entries to curate for task "
                +:+ task_id +:+ ".")
    ∧ m' = m
    ∧ canon m' = canon m ∧ buffer m' = buffer m ∧ disputes m' = disputes m
    ∧ tasks m' = tasks m ∧ scratch m' = scratch m.
Proof.
  intros Hdone. exists m. split; [|done].
  apply curate_task_no_pending.
  destruct (pending task_id m) as [|r rest] eqn:Hp; [done|].
  assert (Hr : r ∈ pending task_id m) by (rewrite Hp; left).
  apply pending_elem in Hr as (Hin & Htask & Hprom & Hdis).
  destruct (Hdone r Hin Htask) as [H|H]; congruence.
Qed.

Lemma curate_task_nothing_pending_witness :
  curate_task 0 oracle_always_dismiss (λ _, env_1) "T" store_a_promoted
  = Some (store_a_promoted, "[Curator] No buffer entries to curate for task T.").
Proof.
  destruct (curate_task_nothing_pending 0 oracle_always_dismiss (λ _, env_1)
              "T" store_a_promoted) as (m' & Hrun & -> & _).
  - intros r Hr _. apply list_elem_of_singleton in Hr as ->. by left.
  - exact Hrun.
Defined.

(** ** Sequences of buffer operations *)

(** C2, counterexample: entry A is appended, promoted by a promote
    decision and then dismissed by a dismiss decision; both decisions are
    applied and the entry ends with both flags set.  In the other order,
    the promote decision on the dismissed entry is applied as well. *)
Lemma promoted_and_dismissed_together :
  (λ r, (Buffer.promoted r, Buffer.dismissed r)) <$>
    buffer (run_ops [OpAppend call_a;
                     OpDecision env_1 "promote_to_canon"
                       (promote_decision "1f3a9c2e" "facts" "X" (0.8)%Q);
                     OpDecision env_1 "dismiss_buffer_entry"
                       (dismiss_decision "1f3a9c2e" "speculative")]
              fresh_store)
  = [(true, true)]
  ∧ (_dispatch env_1 "dismiss_buffer_entry"
       (dismiss_decision "1f3a9c2e" "speculative") store_a_promoted).2
    = Dismissed "1f3a9c2e" "speculative"
  ∧ (_dispatch env_1 "promote_to_canon"
       (promote_decision "1f3a9c2e" "facts" "X" (0.8)%Q)
       (mark_buffer_dismissed "1f3a9c2e" store_a)).2
    = Promoted "1f3a9c2e" "facts/X" (0.8)%Q
  ∧ (λ r, (Buffer.promoted r, Buffer.dismissed r)) <$>
      buffer (_dispatch env_1 "promote_to_canon"
                (promote_decision "1f3a9c2e" "facts" "X" (0.8)%Q)
                (mark_buffer_dismissed "1f3a9c2e" store_a)).1
    = [(true, true)].
Proof. split_and!; vm_compute; reflexivity. Qed.

Lemma mark_promoted_elem (j : string) (m : MemoryStore) (r' : Buffer.record) :
  r' ∈ buffer (mark_buffer_promoted j m) →
  ∃ r, r ∈ buffer m ∧ Buffer.id r' = Buffer.id r
       ∧ Buffer.dismissed r' = Buffer.dismissed r
       ∧ (Buffer.promoted r' = Buffer.promoted r ∨ Buffer.id r = j).
Proof.
  simpl. intros (r & -> & Hr)%list_elem_of_fmap. exists r.
  destruct (decide (Buffer.id r = j)); simpl; auto.
Qed.

Lemma mark_dismissed_elem (j : string) (m : MemoryStore) (r' : Buffer.record) :
  r' ∈ buffer (mark_buffer_dismissed j m) →
  ∃ r, r ∈ buffer m ∧ Buffer.id r' = Buffer.id r
       ∧ Buffer.promoted r' = Buffer.promoted r
       ∧ (Buffer.dismissed r' = Buffer.dismissed r ∨ Buffer.id r = j).
Proof.
  simpl. intros (r & -> & Hr)%list_elem_of_fmap. exists r.
  destruct (decide (Buffer.id r = j)); simpl; auto.
Qed.

(** How a record found after an operation relates to the buffer before
    it: it is newly appended and pending, or it continues a record of the
    same id, and a flag it has was there already or was asked for by the
    operation. *)
Lemma run_op_record (o : operation) (m : MemoryStore) (r' : Buffer.record) :
  r' ∈ buffer (run_op o m) →
  (Buffer.promoted r' = false ∧ Buffer.dismissed r' = false)
  ∨ ∃ r, r ∈ buffer m ∧ Buffer.id r' = Buffer.id r
      ∧ (Buffer.promoted r' = true →
         Buffer.promoted r = true ∨ promotes_id (Buffer.id r) o = true)
      ∧ (Buffer.dismissed r' = true →
         Buffer.dismissed r = true ∨ dismisses_id (Buffer.id r) o = true).
Proof.
  assert (Hkeep : r' ∈ buffer m →
    ∃ r, r ∈ buffer m ∧ Buffer.id r' = Buffer.id r
      ∧ (Buffer.promoted r' = true →
         Buffer.promoted r = true ∨ promotes_id (Buffer.id r) o = true)
      ∧ (Buffer.dismissed r' = true →
         Buffer.dismissed r = true ∨ dismisses_id (Buffer.id r) o = true))
    by (intros Hin; exists r'; auto).
  destruct o as [c|j|j|e tool_name inp]; simpl.
  - intros [Hin| ->%list_elem_of_singleton]%elem_of_app; [right; auto|by left].
  - intros (r & Hr & Hid & Hdis & Hprom)%mark_promoted_elem. right.
    exists r. split_and!; [done|done| |intros; left; congruence].
    intros Hp. destruct Hprom as [Heq| <-]; [left; congruence|right].
    by apply bool_decide_eq_true.
  - intros (r & Hr & Hid & Hprom & Hdis)%mark_dismissed_elem. right.
    exists r. split_and!; [done|done|intros; left; congruence|].
    intros Hd. destruct Hdis as [Heq| <-]; [left; congruence|right].
    by apply bool_decide_eq_true.
  - unfold _dispatch.
    destruct (decide (tool_name = "promote_to_canon")) as [->|Hn1].
    { destruct (find_entry (promote_entry_id inp) (buffer m)) as [a|] eqn:Hfind;
        [|rewrite (promote_not_found _ _ _ Hfind); right; auto].
      destruct (canon m !! promote_target inp) as [old|] eqn:Hold.
      { rewrite (promote_conflict _ _ _ _ Hfind); [right; auto|by eexists]. }
      rewrite (promote_success _ _ _ _ Hfind Hold).
      intros (r & Hr & Hid & Hdis & Hprom)%mark_promoted_elem. right.
      exists r. split_and!; [done|done| |intros; left; congruence].
      intros Hp. destruct Hprom as [Heq|Heq]; [left; congruence|right].
      rewrite Heq. apply andb_true_iff. by rewrite !bool_decide_eq_true. }
    destruct (decide (tool_name = "flag_conflict")) as [->|Hn2];
      [right; auto|].
    destruct (decide (tool_name = "dismiss_buffer_entry")) as [->|Hn3];
      [|right; auto].
    intros (r & Hr & Hid & Hprom & Hdis)%mark_dismissed_elem. right.
    exists r. split_and!; [done|done|intros; left; congruence|].
    intros Hd. destruct Hdis as [Heq|Heq]; [left; congruence|right].
    rewrite Heq. apply andb_true_iff. by rewrite !bool_decide_eq_true.
Qed.

Lemma flags_requested_step (ops : list operation) (o : operation) (m : MemoryStore) :
  flags_requested ops m → flags_requested (ops ++ [o]) (run_op o m).
Proof.
  intros Hinv r' Hr'. rewrite !existsb_app. simpl. rewrite !orb_false_r.
  destruct (run_op_record o m r' Hr') as [[Hp Hd]|(r & Hr & Hid & Hp & Hd)].
  { rewrite Hp, Hd. by split. }
  destruct (Hinv r Hr) as [Hip Hid']. rewrite Hid.
  split; intros Hflag; apply orb_true_iff.
  - destruct (Hp Hflag); auto.
  - destruct (Hd Hflag); auto.
Qed.

Lemma run_ops_snoc (ops : list operation) (o : operation) (m : MemoryStore) :
  run_ops (ops ++ [o]) m = run_op o (run_ops ops m).
Proof. unfold run_ops. by rewrite foldl_snoc. Qed.

Lemma flags_requested_run (ops : list operation) (m : MemoryStore) :
  (∀ r, r ∈ buffer m → Buffer.promoted r = false ∧ Buffer.dismissed r = false) →
  flags_requested ops (run_ops ops m).
Proof.
  intros Hpending. induction ops as [|o ops IH] using rev_ind.
  - intros r Hr. destruct (Hpending r Hr) as [-> ->]. by split.
  - rewrite run_ops_snoc. by apply flags_requested_step.
Qed.

(** C2, as the code has it: flags are set on request and never checked.
    Starting from a buffer whose entries are all pending, after any
    sequence of appends, [mark_buffer_promoted], [mark_buffer_dismissed]
    and curator decisions, an entry whose id was not asked both to be
    promoted and to be dismissed by the sequence does not carry both
    flags. *)
Theorem flags_exclusive_unless_both_requested (ops : list operation)
    (m : MemoryStore) (i : string) (r : Buffer.record) :
  (∀ r0, r0 ∈ buffer m →
         Buffer.promoted r0 = false ∧ Buffer.dismissed r0 = false) →
  existsb (promotes_id i) ops && existsb (dismisses_id i) ops = false →
  r ∈ buffer (run_ops ops m) → Buffer.id r = i →
  Buffer.promoted r && Buffer.dismissed r = false.
Proof.
  intros Hpending Hnot Hr <-.
  destruct (flags_requested_run ops m Hpending r Hr) as [Hp Hd].
  destruct (Buffer.promoted r); [|done].
  destruct (Buffer.dismissed r); [|done].
  by rewrite Hp, Hd in Hnot.
Qed.

Lemma flags_exclusive_unless_both_requested_witness :
  Buffer.promoted (Buffer.with_promoted (Append.record_of call_a))
  && Buffer.dismissed (Buffer.with_promoted (Append.record_of call_a)) = false.
Proof.
  apply (flags_exclusive_unless_both_requested
           [OpAppend call_a;
            OpDecision env_1 "promote_to_canon"
              (promote_decision "1f3a9c2e" "facts" "X" (0.8)%Q);
            OpMarkDismissed "00000000"]
           fresh_store "1f3a9c2e").
  - intros r0 Hr0. by apply elem_of_nil in Hr0.
  - reflexivity.
  - apply list_elem_of_singleton. reflexivity.
  - reflexivity.
Defined.

(** * Further properties of the store *)

(** ** Seeding *)

(** X1: seeding writes only into an empty canon.  Every entry present
    before is present, unchanged, afterwards; a canon with an entry is left
    as it is; an empty canon receives exactly the two baseline keys; and
    seeding again, at any later time, changes nothing. *)
Theorem seed_canon_only_when_empty (t1 t2 t3 t4 : string) (m : MemoryStore) :
  canon m ⊆ canon (_seed_canon_if_empty t1 t2 m)
  ∧ (canon m ≠ ∅ → _seed_canon_if_empty t1 t2 m = m)
  ∧ (canon m = ∅ →
     dom (canon (_seed_canon_if_empty t1 t2 m))
     = {["identity/system"; "standards/memory_rules"]})
  ∧ _seed_canon_if_empty t3 t4 (_seed_canon_if_empty t1 t2 m)
    = _seed_canon_if_empty t1 t2 m.
Proof.
  unfold _seed_canon_if_empty.
  destruct (decide (canon m = ∅)) as [Hempty|Hfull].
  - split_and!.
    + rewrite Hempty. apply map_empty_subseteq.
    + done.
    + intros _. simpl. rewrite Hempty, !dom_insert_L, dom_empty_L.
      unfold full_key. simpl. set_solver.
    + rewrite decide_False; [done|]. simpl. apply insert_non_empty.
  - split_and!; [done|done|done|]. by rewrite decide_False.
Qed.

Lemma seed_canon_only_when_empty_witness :
  _seed_canon_if_empty "2026-02-01T00:00:00+00:00" "2026-02-01T00:00:01+00:00"
    store_with_fact = store_with_fact
  ∧ dom (canon (_seed_canon_if_empty "2026-02-01T00:00:00+00:00"
                  "2026-02-01T00:00:01+00:00" empty_store))
    = {["identity/system"; "standards/memory_rules"]}.
Proof.
  split.
  - destruct (seed_canon_only_when_empty "2026-02-01T00:00:00+00:00"
                "2026-02-01T00:00:01+00:00" "" "" store_with_fact)
      as (_ & Hfull & _).
    apply Hfull. intros H. apply (f_equal (λ c, c !! "facts/X")) in H.
    vm_compute in H. discriminate H.
  - destruct (seed_canon_only_when_empty "2026-02-01T00:00:00+00:00"
                "2026-02-01T00:00:01+00:00" "" "" empty_store)
      as (_ & _ & Hempty & _).
    apply Hempty. reflexivity.
Defined.

(** ** Canon keys *)

Lemma append_cancel_l (p x y : string) : p +:+ x = p +:+ y → x = y.
Proof. induction p as [|c p IH]; simpl; [done|]. intros [= H]. auto. Qed.

Lemma full_key_inj (ns k k' : string) : full_key ns k = full_key ns k' → k = k'.
Proof.
  unfold full_key. intros H%append_cancel_l. simpl in H. by injection H.
Qed.

Lemma append_assoc_3 (a b c : string) : (a +:+ b) +:+ c = a +:+ (b +:+ c).
Proof.
  induction a as [|x a IH]; [done|].
  change (String x ((a +:+ b) +:+ c) = String x (a +:+ (b +:+ c))).
  by rewrite IH.
Qed.

(** X2: round trip of a canon write.  The entry written is read back under
    the returned key by a read without namespace, by a read of its own
    namespace, and by a read of any namespace argument exactly when that
    argument is a prefix of the returned key. *)
Theorem write_canon_read_back now ns k c s conf cb m (ns' : string) :
  let m' := (write_canon now ns k c s conf cb m).1 in
  let key := (write_canon now ns k c s conf cb m).2 in
  let e := {| Canon.content := c; Canon.source := s; Canon.confidence := conf;
              Canon.confirmed_by_user := cb; Canon.last_verified := now;
              Canon.namespace := ns |} in
  read_canon None m' !! key = Some e
  ∧ read_canon (Some ns) m' !! key = Some e
  ∧ (read_canon (Some ns') m' !! key = Some e ↔ ∃ rest, key = ns' +:+ rest).
Proof.
  cbv zeta. change (write_canon now ns k c s conf cb m).2 with (full_key ns k).
  split_and!.
  - apply lookup_insert_eq.
  - rewrite read_canon_full_key. apply lookup_insert_eq.
  - rewrite read_canon_lookup, startswith_spec.
    split; [by intros [_ ?]|]. intros Hpre. split; [|done].
    apply lookup_insert_eq.
Qed.

(** X3: inside one namespace two different keys never meet: a write under
    (namespace, key) leaves the entry of every other key of that namespace
    as it was. *)
Theorem write_canon_other_key now ns k k' c s conf cb m :
  k' ≠ k →
  canon (write_canon now ns k c s conf cb m).1 !! full_key ns k'
  = canon m !! full_key ns k'.
Proof.
  intros Hne. simpl. rewrite lookup_insert_ne; [done|].
  intros H%full_key_inj. by apply Hne.
Qed.

Lemma write_canon_other_key_witness :
  Canon.content <$>
    canon (write_canon "2026-01-03T00:00:00+00:00" "facts" "Y" "Y=1"
             "orchestrator" (0.9)%Q false store_with_fact).1 !! "facts/X"
  = Some "X=4".
Proof.
  change "facts/X" with (full_key "facts" "X").
  rewrite (write_canon_other_key _ "facts" "Y" "X"); [reflexivity|discriminate].
Defined.

(** X4: the full key does not determine the pair it was built from.  A
    write under namespace [ns/x] and key [k] is the entry found under
    namespace [ns] and key [x/k], so a promote decision for the second
    pair, on an entry that resolves and with a confidence that [float]
    returns as it is, is answered as a conflict. *)
Theorem full_key_pairs_alias now ns x k c s conf cb m :
  let m' := (write_canon now (ns +:+ "/" +:+ x) k c s conf cb m).1 in
  full_key (ns +:+ "/" +:+ x) k = full_key ns (x +:+ "/" +:+ k)
  ∧ Canon.content <$> canon m' !! full_key ns (x +:+ "/" +:+ k) = Some c
  ∧ ∀ t entry_id a conf',
      float_exact conf' = true →
      find_entry entry_id (buffer m') = Some a →
      _promote t (promote_decision entry_id ns (x +:+ "/" +:+ k) conf') m'
      = (m', AlreadyExists (full_key ns (x +:+ "/" +:+ k))).
Proof.
  assert (Hkey : full_key (ns +:+ "/" +:+ x) k = full_key ns (x +:+ "/" +:+ k)).
  { unfold full_key. by rewrite !append_assoc_3. }
  cbv zeta. split; [done|]. split.
  - simpl. by rewrite <- Hkey, lookup_insert_eq.
  - intros t entry_id a conf' _ Hfind.
    apply promote_conflict with (e := a); [done|].
    unfold promote_target. simpl. rewrite <- Hkey, lookup_insert_eq. by eexists.
Qed.

Lemma full_key_pairs_alias_witness :
  _promote "2026-01-05T00:00:00+00:00"
    (promote_decision "1f3a9c2e" "projects" "x/k" (0.8)%Q)
    (write_canon "2026-01-04T00:00:00+00:00" "projects/x" "k" "kept"
       "orchestrator" (0.9)%Q false store_a).1
  = ((write_canon "2026-01-04T00:00:00+00:00" "projects/x" "k" "kept"
        "orchestrator" (0.9)%Q false store_a).1,
     AlreadyExists "projects/x/k").
Proof.
  destruct (full_key_pairs_alias "2026-01-04T00:00:00+00:00" "projects" "x" "k"
              "kept" "orchestrator" (0.9)%Q false store_a) as (_ & _ & H).
  apply (H _ "1f3a9c2e" (Append.record_of call_a)); reflexivity.
Defined.

(** ** Disputes *)

(** X5: a flag-conflict decision is never refused and validates nothing:
    whatever ids it names (absent keys count as the empty string), it
    writes one unresolved dispute carrying them, the id of which is
    returned; when the strings of that dispute are read back from their
    line, the open disputes read are the earlier ones followed by the new
    one, the resolved ones are the same, and canon, buffer, tasks and
    scratch are untouched. *)
Theorem flag_conflict_always_records (e : env) (inp : ToolInput.t)
    (m : MemoryStore) :
  let m' := (_dispatch e "flag_conflict" inp m).1 in
  let d := {| Dispute.id := slice_to 8 (uuid e);
              Dispute.buffer_id := default "" (ToolInput.buffer_id inp);
              Dispute.canon_id := default "" (ToolInput.canon_id inp);
              Dispute.reason := default "" (ToolInput.reason inp);
              Dispute.timestamp := now e;
              Dispute.resolved := false |} in
  dispute_line_safe d = true →
  (_dispatch e "flag_conflict" inp m).2 = ConflictRecorded (slice_to 8 (uuid e))
  ∧ read_disputes None m' = read_disputes None m ++ [d]
  ∧ read_disputes (Some false) m' = read_disputes (Some false) m ++ [d]
  ∧ read_disputes (Some true) m' = read_disputes (Some true) m
  ∧ canon m' = canon m ∧ buffer m' = buffer m
  ∧ tasks m' = tasks m ∧ scratch m' = scratch m.
Proof.
  cbv zeta. intros _. split_and!; try done.
  - unfold read_disputes. simpl. by rewrite filter_app, filter_cons_True.
  - unfold read_disputes. simpl.
    by rewrite filter_app, filter_cons_False, filter_nil, app_nil_r.
Qed.

Lemma flag_conflict_always_records_witness :
  Dispute.reason <$>
    read_disputes (Some false)
      (_dispatch env_1 "flag_conflict" conflict_decision_a store_a_conflict).1
  = ["contradicts prior value"].
Proof.
  destruct (flag_conflict_always_records env_1 conflict_decision_a
              store_a_conflict) as (_ & _ & Hopen & _).
  - reflexivity.
  - rewrite Hopen. reflexivity.
Defined.

(** ** Entries leaving the pending set *)

Lemma pending_mark_dismissed (task_id entry_id : string) (m : MemoryStore) :
  pending task_id (mark_buffer_dismissed entry_id m)
  = filter (λ r, Buffer.id r ≠ entry_id) (pending task_id m).
Proof.
  unfold pending, read_buffer. simpl.
  induction (buffer m) as [|r l IH]; [done|].
  rewrite fmap_cons, !filter_cons.
  destruct (decide (Buffer.id r = entry_id)) as [Hid|Hid]; simpl.
  - destruct (decide (Buffer.task_id r = task_id)); [|exact IH].
    rewrite !filter_cons. simpl.
    destruct (decide (Buffer.promoted r = false)); [|exact IH].
    rewrite !filter_cons. simpl.
    destruct (decide (Buffer.dismissed r = false)); [|exact IH].
    rewrite filter_cons_False; [exact IH|]. by intros ?.
  - destruct (decide (Buffer.task_id r = task_id)); [|exact IH].
    rewrite !filter_cons.
    destruct (decide (Buffer.promoted r = false)); [|exact IH].
    rewrite !filter_cons.
    destruct (decide (Buffer.dismissed r = false)); [|exact IH].
    rewrite filter_cons_True by done. by rewrite IH.
Qed.

Lemma pending_mark_promoted (task_id entry_id : string) (m : MemoryStore) :
  pending task_id (mark_buffer_promoted entry_id m)
  = filter (λ r, Buffer.id r ≠ entry_id) (pending task_id m).
Proof.
  unfold pending, read_buffer. simpl.
  induction (buffer m) as [|r l IH]; [done|].
  rewrite fmap_cons, !filter_cons.
  destruct (decide (Buffer.id r = entry_id)) as [Hid|Hid]; simpl.
  - destruct (decide (Buffer.task_id r = task_id)); [|exact IH].
    rewrite !filter_cons. simpl.
    destruct (decide (Buffer.promoted r = false)); [|exact IH].
    rewrite !filter_cons.
    destruct (decide (Buffer.dismissed r = false)); [|exact IH].
    rewrite filter_cons_False; [exact IH|]. by intros ?.
  - destruct (decide (Buffer.task_id r = task_id)); [|exact IH].
    rewrite !filter_cons.
    destruct (decide (Buffer.promoted r = false)); [|exact IH].
    rewrite !filter_cons.
    destruct (decide (Buffer.dismissed r = false)); [|exact IH].
    rewrite filter_cons_True by done. by rewrite IH.
Qed.

(** X6: a dismiss decision is always answered as done, also for an id no
    entry carries; for every task the entries still to curate afterwards
    are the earlier ones without those of the dismissed id, in the same
    order, and canon and disputes are untouched. *)
Theorem dismiss_removes_from_pending (e : env) (inp : ToolInput.t)
    (task_id : string) (m : MemoryStore) :
  let entry_id := default "" (ToolInput.entry_id inp) in
  let m' := (_dispatch e "dismiss_buffer_entry" inp m).1 in
  (_dispatch e "dismiss_buffer_entry" inp m).2
  = Dismissed entry_id
      (default "low quality or task-specific" (ToolInput.reason inp))
  ∧ pending task_id m'
    = filter (λ r, Buffer.id r ≠ entry_id) (pending task_id m)
  ∧ canon m' = canon m ∧ disputes m' = disputes m.
Proof.
  cbv zeta. rewrite dispatch_dismiss. split_and!; try done.
  apply pending_mark_dismissed.
Qed.

(** X7: a promote decision that succeeded cannot succeed again: with a
    confidence that [float] returns as it is, repeated as it is, at any
    later time, it is answered as a conflict and changes nothing; and for
    every task the entries still to curate after the promotion are the
    earlier ones without those of the promoted id. *)
Theorem promote_retry_rejected (t t' : string) (inp : ToolInput.t)
    (m : MemoryStore) (a : Buffer.record) (task_id : string) :
  confidence_accepted inp = true →
  find_entry (promote_entry_id inp) (buffer m) = Some a →
  canon m !! promote_target inp = None →
  let m' := (_promote t inp m).1 in
  (_promote t inp m).2
  = Promoted (promote_entry_id inp) (promote_target inp) (promote_confidence inp)
  ∧ _promote t' inp m' = (m', AlreadyExists (promote_target inp))
  ∧ pending task_id m'
    = filter (λ r, Buffer.id r ≠ promote_entry_id inp) (pending task_id m).
Proof.
  intros _ Hfind Hfree. cbv zeta.
  rewrite (promote_success _ _ _ _ Hfind Hfree). split; [done|]. split.
  - eapply promote_conflict.
    + simpl. rewrite find_entry_mark_promoted, Hfind. reflexivity.
    + simpl. unfold promote_target. rewrite lookup_insert_eq. by eexists.
  - simpl. apply (pending_mark_promoted task_id (promote_entry_id inp)
                    (set_canon _ m)).
Qed.

Lemma promote_retry_rejected_witness :
  _promote "2026-01-06T00:00:00+00:00"
    (promote_decision "1f3a9c2e" "facts" "X" (0.8)%Q) store_a_promoted
  = (store_a_promoted, AlreadyExists "facts/X").
Proof.
  apply (promote_retry_rejected (now env_1) "2026-01-06T00:00:00+00:00"
           (promote_decision "1f3a9c2e" "facts" "X" (0.8)%Q) store_a
           (Append.record_of call_a) "T"); reflexivity.
Defined.

(** ** Scratch *)

Lemma append_length (a b : string) :
  String.length (a +:+ b) = String.length a + String.length b.
Proof.
  induction a as [|c a IH]; [done|].
  change (S (String.length (a +:+ b)) = S (String.length a + String.length b)).
  by rewrite IH.
Qed.

Lemma append_cancel_r (x y s : string) : x +:+ s = y +:+ s → x = y.
Proof.
  revert y. induction x as [|c x IH]; intros [|d y] H.
  - done.
  - apply (f_equal String.length) in H.
    change (String.length s = S (String.length (y +:+ s))) in H.
    rewrite append_length in H. lia.
  - apply (f_equal String.length) in H.
    change (S (String.length (x +:+ s)) = String.length s) in H.
    rewrite append_length in H. lia.
  - change (String c (x +:+ s) = String d (y +:+ s)) in H.
    injection H as -> H. by rewrite (IH _ H).
Qed.

Lemma split_at_first (u : Ascii.ascii) (a a' r r' : string) :
  char_in u a = false → char_in u a' = false →
  a +:+ String u r = a' +:+ String u r' → a = a' ∧ r = r'.
Proof.
  revert a'. induction a as [|c a IH]; intros [|c' a'] Ha Ha' H.
  - change (String u r = String u r') in H. by injection H.
  - change (String u r = String c' (a' +:+ String u r')) in H.
    injection H as -> _. simpl in Ha'. by rewrite Ascii.eqb_refl in Ha'.
  - change (String c (a +:+ String u r) = String u r') in H.
    injection H as -> _. simpl in Ha. by rewrite Ascii.eqb_refl in Ha.
  - change (String c (a +:+ String u r) = String c' (a' +:+ String u r')) in H.
    injection H as -> H. simpl in Ha, Ha'.
    apply orb_false_iff in Ha as [_ Ha]. apply orb_false_iff in Ha' as [_ Ha'].
    destruct (IH _ Ha Ha' H) as [-> ->]. done.
Qed.

(** Agent names without ["_"] give each (agent, task) pair a file of its
    own. *)
Lemma scratch_file_inj (a t a' t' : string) :
  char_in underscore a = false → char_in underscore a' = false →
  scratch_file a t = scratch_file a' t' → a = a' ∧ t = t'.
Proof.
  intros Ha Ha' H.
  change (a +:+ String underscore (t +:+ ".json")
          = a' +:+ String underscore (t' +:+ ".json")) in H.
  destruct (split_at_first _ _ _ _ _ Ha Ha' H) as [-> Ht].
  by apply append_cancel_r in Ht as ->.
Qed.

(** X8: round trips of a scratchpad whose file name is one plain path
    component.  The notes read after a write are the notes read before it
    followed by the new note with the time of the write; after a clear
    nothing is read; clearing a scratchpad that does not exist leaves the
    store as it is; and writes and clears change neither canon nor
    buffer, disputes or tasks. *)
Theorem scratch_write_clear_read (t : string) (agent task note : string)
    (m : MemoryStore) :
  plain_file_name (scratch_file agent task) = true →
  read_scratch agent task (write_scratch t agent task note m)
  = read_scratch agent task m
    ++ [{| Scratch.note := note; Scratch.timestamp := t |}]
  ∧ read_scratch agent task (clear_scratch agent task m) = []
  ∧ read_scratch agent task
      (write_scratch t agent task note (clear_scratch agent task m))
    = [{| Scratch.note := note; Scratch.timestamp := t |}]
  ∧ (scratch m !! scratch_file agent task = None →
     clear_scratch agent task m = m)
  ∧ (let m' := write_scratch t agent task note m in
     canon m' = canon m ∧ buffer m' = buffer m
     ∧ disputes m' = disputes m ∧ tasks m' = tasks m)
  ∧ (let m' := clear_scratch agent task m in
     canon m' = canon m ∧ buffer m' = buffer m
     ∧ disputes m' = disputes m ∧ tasks m' = tasks m).
Proof.
  intros _.
  assert (Hclear : read_scratch agent task (clear_scratch agent task m) = []).
  { unfold read_scratch, clear_scratch.
    destruct (scratch m !! scratch_file agent task) as [l|] eqn:E; simpl.
    - by rewrite lookup_delete_eq.
    - by rewrite E. }
  split_and!.
  - unfold read_scratch, write_scratch. simpl. by rewrite lookup_insert_eq.
  - exact Hclear.
  - unfold read_scratch in *. unfold write_scratch at 1. simpl.
    rewrite lookup_insert_eq. by rewrite Hclear.
  - intros E. unfold clear_scratch. by rewrite E.
  - done.
  - unfold clear_scratch.
    by destruct (scratch m !! scratch_file agent task).
Qed.

Lemma scratch_write_clear_read_witness :
  clear_scratch "research" "T" store_a = store_a.
Proof.
  destruct (scratch_write_clear_read "" "research" "T" "" store_a)
    as (_ & _ & _ & H & _).
  - reflexivity.
  - apply H. reflexivity.
Defined.

(** X9: scratchpads are private to their (agent, task) pair when the
    file names of both pairs are plain path components and the agent
    names contain no ["_"], as the five agent names of the hierarchy: a
    write or a clear for one pair leaves what every other pair reads as
    it was. *)
Theorem scratch_private (t : string) (agent task note agent' task' : string)
    (m : MemoryStore) :
  plain_file_name (scratch_file agent task) = true →
  plain_file_name (scratch_file agent' task') = true →
  char_in underscore agent = false → char_in underscore agent' = false →
  (agent, task) ≠ (agent', task') →
  read_scratch agent' task' (write_scratch t agent task note m)
  = read_scratch agent' task' m
  ∧ read_scratch agent' task' (clear_scratch agent task m)
    = read_scratch agent' task' m.
Proof.
  intros _ _ Ha Ha' Hne.
  assert (Hfile : scratch_file agent task ≠ scratch_file agent' task').
  { intros H. destruct (scratch_file_inj _ _ _ _ Ha Ha' H) as [-> ->]. done. }
  split.
  - unfold read_scratch, write_scratch. simpl. by rewrite lookup_insert_ne.
  - unfold read_scratch, clear_scratch.
    destruct (scratch m !! scratch_file agent task); [|done].
    simpl. by rewrite lookup_delete_ne.
Qed.

Lemma scratch_private_witness :
  read_scratch "code" "T"
    (write_scratch "2026-01-01T12:00:00+00:00" "research" "T" "hypothesis" store_a)
  = [].
Proof.
  destruct (scratch_private "2026-01-01T12:00:00+00:00" "research" "T"
              "hypothesis" "code" "T" store_a) as [H _].
  - reflexivity.
  - reflexivity.
  - reflexivity.
  - reflexivity.
  - discriminate.
  - rewrite H. reflexivity.
Defined.

(** ** The slices of a memory context *)

Lemma slice_from_back {A : Type} (n : Z) (l : list A) :
  (0 < n)%Z → slice_from (- n) l = drop (length l - Z.to_nat n) l.
Proof.
  intros Hn. unfold slice_from.
  destruct (Z.ltb_spec (- n) 0) as [_|?]; [|lia]. f_equal. lia.
Qed.

Lemma slice_from_zero {A : Type} (l : list A) : slice_from 0 l = l.
Proof. unfold slice_from. simpl. by rewrite Z.min_l by lia. Qed.

Lemma slice_from_front {A : Type} (n : Z) (l : list A) :
  (0 <= n)%Z → slice_from n l = drop (Z.to_nat n) l.
Proof.
  intros Hn. unfold slice_from.
  destruct (Z.ltb_spec n 0) as [?|_]; [lia|].
  destruct (Z.min_spec n (Z.of_nat (length l))) as [[_ ->]|[Hle ->]]; [done|].
  rewrite Nat2Z.id, drop_all. symmetry. apply drop_ge. lia.
Qed.

(** X10: the tentative entries of a memory context are always taken from
    the end of what [curate_task] would select for the task.  A positive
    bound keeps the last [max_buffer] of them (all, when there are fewer);
    the bound 0 keeps all of them, not none; a negative bound drops that
    many from the front. *)
Theorem context_buffer_bound (task_id : string) (max_buffer : Z)
    (m : MemoryStore) :
  get_context_buffer task_id max_buffer m `suffix_of` pending task_id m
  ∧ ((0 < max_buffer)%Z →
     length (get_context_buffer task_id max_buffer m)
     = Z.to_nat max_buffer `min` length (pending task_id m))
  ∧ (max_buffer = 0%Z → get_context_buffer task_id max_buffer m = pending task_id m)
  ∧ ((max_buffer < 0)%Z →
     get_context_buffer task_id max_buffer m
     = drop (Z.to_nat (- max_buffer)) (pending task_id m)).
Proof.
  unfold get_context_buffer. fold (pending task_id m). split_and!.
  - apply suffix_drop.
  - intros Hn. rewrite slice_from_back, length_drop by done. lia.
  - intros ->. apply slice_from_zero.
  - intros Hn. apply slice_from_front. lia.
Qed.

Lemma context_buffer_bound_witness :
  length (get_context_buffer "T" 1 store_a_c) = 1
  ∧ get_context_buffer "T" 0 store_a_c = pending "T" store_a_c.
Proof.
  destruct (context_buffer_bound "T" 1 store_a_c) as (_ & Hpos & _).
  destruct (context_buffer_bound "T" 0 store_a_c) as (_ & _ & Hzero & _).
  split; [rewrite Hpos by done; reflexivity|by apply Hzero].
Defined.

(** X11: the canon slice of a memory context.  Without namespaces, or with
    an empty list of them, it is the whole canon; with namespaces it holds
    exactly the entries that a namespace read returns for one of them, so
    it is selected by key prefix as those reads are. *)
Theorem context_canon_slice (m : MemoryStore) :
  get_context_canon None m = canon m
  ∧ get_context_canon (Some []) m = canon m
  ∧ ∀ nss k v, nss ≠ [] →
      (get_context_canon (Some nss) m !! k = Some v
       ↔ ∃ ns, ns ∈ nss ∧ read_canon (Some ns) m !! k = Some v).
Proof.
  split; [done|]. split; [done|].
  intros [|ns0 rest] k v Hne; [done|].
  unfold get_context_canon. simpl read_canon.
  rewrite map_lookup_filter_Some. cbn [fst].
  rewrite existsb_exists. split.
  - intros (Hk & ns & Hin%list_elem_of_In & Hpre). exists ns.
    split; [done|]. by apply read_canon_lookup.
  - intros (ns & Hin & [Hk Hpre]%read_canon_lookup). split; [done|].
    exists ns. split; [by apply list_elem_of_In|done].
Qed.

Lemma context_canon_slice_witness :
  Canon.content <$>
    get_context_canon (Some ["identity"; "standards"]) store_two_namespaces
      !! "identity_v2/system" = Some "second".
Proof.
  destruct (context_canon_slice store_two_namespaces) as (_ & _ & H).
  destruct (canon store_two_namespaces !! "identity_v2/system")
    as [v|] eqn:E; [|vm_compute in E; discriminate E].
  rewrite (proj2 (H ["identity"; "standards"] "identity_v2/system" v
                    ltac:(discriminate))).
  - vm_compute in E. injection E as <-. reflexivity.
  - exists "identity". split; [left|].
    apply read_canon_lookup. split; [exact E|reflexivity].
Defined.

(** * Further properties of the curator *)

(** ** What a run of the tool-use loop preserves *)

Section Preserved.

(** A relation between the store before and after, kept by every
    dispatched tool call. *)
Variable R : MemoryStore → MemoryStore → Prop.
Hypothesis R_refl : ∀ m, R m m.
Hypothesis R_trans : ∀ m1 m2 m3, R m1 m2 → R m2 m3 → R m1 m3.
Hypothesis R_dispatch : ∀ e name inp m, R m (_dispatch e name inp m).1.

Lemma dispatch_blocks_preserved world k blocks m :
  R m (dispatch_blocks world k blocks m).1.1.
Proof.
  revert k m. induction blocks as [|[text|name input] rest IH]; intros k m.
  - apply R_refl.
  - apply IH.
  - simpl. pose proof (R_dispatch (world k) name input m) as Hd.
    destruct (_dispatch (world k) name input m) as [m1 res].
    pose proof (IH (S k) m1) as Hrest.
    destruct (dispatch_blocks world (S k) rest m1) as [[m2 results] k'].
    simpl in *. by eapply R_trans.
Qed.

Lemma agentic_loop_preserved fuel oracle world k messages m m' text :
  _agentic_loop fuel oracle world k messages m = Some (m', text) → R m m'.
Proof.
  revert k messages m. induction fuel as [|fuel IH]; intros k messages m; [done|].
  simpl. destruct (stop (oracle messages)).
  - intros [= <- _]. apply R_refl.
  - pose proof (dispatch_blocks_preserved world k (content (oracle messages)) m)
      as Hblocks.
    destruct (dispatch_blocks world k (content (oracle messages)) m)
      as [[m1 results] k'].
    intros Hrun%IH. simpl in Hblocks. by eapply R_trans.
  - intros [= <- _]. apply R_refl.
Qed.

Lemma curate_task_preserved fuel oracle world task_id m m' text :
  curate_task fuel oracle world task_id m = Some (m', text) → R m m'.
Proof.
  unfold curate_task. fold (pending task_id m).
  destruct (pending task_id m) as [|r rest].
  - intros [= <- _]. apply R_refl.
  - apply agentic_loop_preserved.
Qed.

End Preserved.

Lemma dispatch_cases e name inp m :
  (_dispatch e name inp m).1 = m
  ∨ (∃ a, find_entry (promote_entry_id inp) (buffer m) = Some a
        ∧ canon m !! promote_target inp = None
        ∧ (_dispatch e name inp m).1
          = mark_buffer_promoted (promote_entry_id inp)
              (write_canon (now e) (default "facts" (ToolInput.namespace inp))
                 (default (promote_entry_id inp) (ToolInput.key inp))
                 (Buffer.claim a) (provenance a) (promote_confidence inp)
                 false m).1)
  ∨ (_dispatch e name inp m).1 = (_flag_conflict e inp m).1
  ∨ (_dispatch e name inp m).1
    = mark_buffer_dismissed (default "" (ToolInput.entry_id inp)) m.
Proof.
  unfold _dispatch.
  destruct (decide (name = "promote_to_canon")) as [->|_].
  { destruct (find_entry (promote_entry_id inp) (buffer m)) as [a|] eqn:Hfind;
      [|left; by rewrite (promote_not_found _ _ _ Hfind)].
    destruct (canon m !! promote_target inp) as [old|] eqn:Hold.
    { left. rewrite (promote_conflict _ _ _ _ Hfind); [done|by eexists]. }
    right; left. exists a. by rewrite (promote_success _ _ _ _ Hfind Hold). }
  destruct (decide (name = "flag_conflict")); [by right; right; left|].
  destruct (decide (name = "dismiss_buffer_entry")); [by right; right; right|].
  by left.
Qed.

Lemma dispatch_canon_kept e name inp m :
  canon m ⊆ canon (_dispatch e name inp m).1.
Proof.
  destruct (dispatch_cases e name inp m)
    as [->|[(a & _ & Hfree & ->)|[->| ->]]]; try done.
  simpl. by apply insert_subseteq.
Qed.

Lemma flags_raised_refl r : flags_raised r r.
Proof. by repeat split. Qed.

Lemma flags_raised_trans r1 r2 r3 :
  flags_raised r1 r2 → flags_raised r2 r3 → flags_raised r1 r3.
Proof.
  intros (?&?&?&?&?&?&?&?&?) (?&?&?&?&?&?&?&?&?).
  repeat split; try congruence; auto.
Qed.

Lemma rewrite_buffer_flags_raised (f : Buffer.record → Buffer.record)
    (m : MemoryStore) :
  (∀ r, flags_raised r (f r)) →
  Forall2 flags_raised (buffer m) (buffer (_rewrite_buffer f m)).
Proof.
  intros Hf. simpl. apply Forall2_fmap_r, Forall_Forall2_diag.
  apply Forall_forall. intros r _. apply Hf.
Qed.

Lemma dispatch_flags_raised e name inp m :
  Forall2 flags_raised (buffer m) (buffer (_dispatch e name inp m).1).
Proof.
  assert (Hrefl : ∀ l, Forall2 flags_raised l l).
  { intros l. apply Forall_Forall2_diag, Forall_forall.
    intros r _. apply flags_raised_refl. }
  destruct (dispatch_cases e name inp m)
    as [->|[(a & _ & _ & ->)|[->| ->]]]; try apply Hrefl.
  - apply (rewrite_buffer_flags_raised _ (set_canon _ m)). intros r.
    destruct (decide (Buffer.id r = promote_entry_id inp));
      [by repeat split|apply flags_raised_refl].
  - apply rewrite_buffer_flags_raised. intros r.
    destruct (decide (Buffer.id r = default "" (ToolInput.entry_id inp)));
      [by repeat split|apply flags_raised_refl].
Qed.

Lemma rest_kept_refl m : rest_kept m m.
Proof. split; [|done]. exists []. by rewrite app_nil_r. Qed.

Lemma rest_kept_trans m1 m2 m3 :
  rest_kept m1 m2 → rest_kept m2 m3 → rest_kept m1 m3.
Proof.
  intros [(n1 & E1 & F1) [T1 S1]] [(n2 & E2 & F2) [T2 S2]].
  split; [|split; congruence].
  exists (n1 ++ n2). split; [by rewrite E2, E1, app_assoc|].
  by apply Forall_app.
Qed.

Lemma dispatch_rest_kept e name inp m : rest_kept m (_dispatch e name inp m).1.
Proof.
  destruct (dispatch_cases e name inp m)
    as [->|[(a & _ & _ & ->)|[->| ->]]].
  - apply rest_kept_refl.
  - split; [|done]. exists []. simpl. by rewrite app_nil_r.
  - split; [|done]. eexists [_]. split; [reflexivity|].
    by apply Forall_singleton.
  - split; [|done]. exists []. simpl. by rewrite app_nil_r.
Qed.

(** X12: curation never overwrites or removes a canon entry.  Whatever
    the oracle decides, in whatever order and however often, every key
    present before a run of [curate_task] holds the same entry after it. *)
Theorem curate_task_keeps_canon fuel oracle world task_id m m' text :
  curate_task fuel oracle world task_id m = Some (m', text) →
  ∀ k v, canon m !! k = Some v → canon m' !! k = Some v.
Proof.
  intros Hrun. apply map_subseteq_spec.
  eapply (curate_task_preserved (λ m m', canon m ⊆ canon m'));
    [done| |apply dispatch_canon_kept|exact Hrun].
  intros m1 m2 m3 H12 H23. by transitivity (canon m2).
Qed.

Lemma curate_task_keeps_canon_witness :
  ∃ m' text,
    curate_task 2 oracle_one_round (λ _, env_1) "T" store_a_c = Some (m', text)
    ∧ Canon.source <$> canon m' !! "identity/system" = Some "system_init".
Proof.
  destruct (curate_task 2 oracle_one_round (λ _, env_1) "T" store_a_c)
    as [[m' text]|] eqn:Hrun; [|vm_compute in Hrun; discriminate Hrun].
  exists m', text. split; [reflexivity|].
  destruct (canon store_a_c !! "identity/system") as [v|] eqn:E;
    [|vm_compute in E; discriminate E].
  rewrite (curate_task_keeps_canon _ _ _ _ _ _ _ Hrun _ _ E).
  vm_compute in E. injection E as <-. reflexivity.
Defined.

(** X13: curation changes nothing in the buffer but flags, and only by
    raising them.  After a run of [curate_task] the buffer has the same
    records in the same order, each with its id, claim, source, agent,
    task, confidence and timestamp; a record promoted or dismissed before
    is still so. *)
Theorem curate_task_only_raises_flags fuel oracle world task_id m m' text :
  curate_task fuel oracle world task_id m = Some (m', text) →
  Forall2 flags_raised (buffer m) (buffer m').
Proof.
  intros Hrun.
  eapply (curate_task_preserved
            (λ m m', Forall2 flags_raised (buffer m) (buffer m')));
    [| |apply dispatch_flags_raised|exact Hrun].
  - intros m0. apply Forall_Forall2_diag, Forall_forall.
    intros r _. apply flags_raised_refl.
  - intros m1 m2 m3. apply Forall2_trans, flags_raised_trans.
Qed.

Lemma curate_task_only_raises_flags_witness :
  ∃ m' text,
    curate_task 2 oracle_one_round (λ _, env_1) "T" store_a_c = Some (m', text)
    ∧ length (buffer m') = 2.
Proof.
  destruct (curate_task 2 oracle_one_round (λ _, env_1) "T" store_a_c)
    as [[m' text]|] eqn:Hrun; [|vm_compute in Hrun; discriminate Hrun].
  exists m', text. split; [reflexivity|].
  by rewrite <- (Forall2_length _ _ _
                   (curate_task_only_raises_flags _ _ _ _ _ _ _ Hrun)).
Defined.

Lemma filter_resolved_new (new : list Dispute.record) :
  Forall (λ d, Dispute.resolved d = false) new →
  filter (λ r, Dispute.resolved r = true) new = [].
Proof.
  induction 1 as [|d new Hd _ IH]; [done|].
  rewrite filter_cons_False; [done|]. by rewrite Hd.
Qed.

(** X14: curation only adds to the dispute log and leaves the rest alone.
    After a run of [curate_task] the disputes are the earlier ones
    followed by new, unresolved ones, so the resolved disputes read back
    are the same, and the task documents and the scratchpads are
    untouched. *)
Theorem curate_task_rest_kept fuel oracle world task_id m m' text :
  curate_task fuel oracle world task_id m = Some (m', text) →
  (∃ new, disputes m' = disputes m ++ new
          ∧ Forall (λ d, Dispute.resolved d = false) new)
  ∧ read_disputes (Some true) m' = read_disputes (Some true) m
  ∧ tasks m' = tasks m ∧ scratch m' = scratch m.
Proof.
  intros Hrun.
  destruct (curate_task_preserved rest_kept rest_kept_refl rest_kept_trans
              dispatch_rest_kept _ _ _ _ _ _ _ Hrun)
    as [(new & E & Hnew) [HT HS]].
  split; [by exists new|]. split; [|done].
  unfold read_disputes. rewrite E, filter_app, (filter_resolved_new new) by done.
  by rewrite app_nil_r.
Qed.

Lemma curate_task_rest_kept_witness :
  ∃ m' text,
    curate_task 2 oracle_one_round (λ _, env_1) "T" store_a_c = Some (m', text)
    ∧ scratch m' = ∅.
Proof.
  destruct (curate_task 2 oracle_one_round (λ _, env_1) "T" store_a_c)
    as [[m' text]|] eqn:Hrun; [|vm_compute in Hrun; discriminate Hrun].
  exists m', text. split; [reflexivity|].
  destruct (curate_task_rest_kept _ _ _ _ _ _ _ Hrun) as (_ & _ & _ & ->).
  reflexivity.
Defined.

(** X15: only a [tool_use] stop applies decisions.  When the oracle's
    first answer stops for any other reason, [curate_task] returns with
    the store as it was, even if that answer carries tool calls, and with
    entries to curate the text returned is the text of that answer. *)
Theorem curate_task_without_tool_use fuel oracle world task_id m :
  stop (oracle [Prompt task_id (pending task_id m) (canon m)]) ≠ ToolUse →
  ∃ text,
    curate_task (S fuel) oracle world task_id m = Some (m, text)
    ∧ (pending task_id m ≠ [] →
       text = _extract_text
                (oracle [Prompt task_id (pending task_id m) (canon m)])).
Proof.
  intros Hstop. unfold curate_task. fold (pending task_id m).
  destruct (pending task_id m) as [|r rest] eqn:Hp.
  - eexists. split; [reflexivity|done].
  - simpl. change (read_canon None m) with (canon m).
    destruct (stop (oracle [Prompt task_id (r :: rest) (canon m)])) eqn:E;
      [|done|]; eexists; split; reflexivity || done.
Qed.

Lemma curate_task_without_tool_use_witness :
  curate_task 1 oracle_cut_off (λ _, env_1) "T" store_a_c
  = Some (store_a_c, "Dismissing").
Proof.
  destruct (curate_task_without_tool_use 0 oracle_cut_off (λ _, env_1) "T"
              store_a_c) as (text & Hrun & Htext).
  - discriminate.
  - rewrite Hrun, Htext; [reflexivity|]. vm_compute. discriminate.
Defined.

(** ** Promote decisions on missing ids and missing keys *)

Lemma find_entry_None (i : string) (l : list Buffer.record) :
  find_entry i l = None ↔ ∀ r, r ∈ l → Buffer.id r ≠ i.
Proof.
  unfold find_entry. induction l as [|r l IH].
  - split; [|done]. intros _ r Hr. by apply elem_of_nil in Hr.
  - rewrite filter_cons. destruct (decide (Buffer.id r = i)) as [Hid|Hid].
    + split; [done|]. intros H. exfalso. apply (H r); [left|done].
    + rewrite IH. split.
      * intros H r' [->|Hin]%elem_of_cons; auto.
      * intros H r' Hin. apply H. by right.
Qed.

(** X16: a promote decision for an id that no buffer entry carries (an
    omitted id counts as the empty string), with a confidence that [float]
    returns as it is, is answered not-found and changes nothing, whether
    or not its target key is free. *)
Theorem promote_unknown_entry (e : env) (inp : ToolInput.t) (m : MemoryStore) :
  confidence_accepted inp = true →
  (∀ r, r ∈ buffer m → Buffer.id r ≠ default "" (ToolInput.entry_id inp)) →
  _dispatch e "promote_to_canon" inp m
  = (m, NotFound (default "" (ToolInput.entry_id inp))).
Proof.
  intros _ Habsent. rewrite dispatch_promote.
  apply promote_not_found. by apply find_entry_None.
Qed.

Lemma promote_unknown_entry_witness :
  _dispatch env_1 "promote_to_canon" ToolInput.empty store_a
  = (store_a, NotFound "").
Proof.
  apply (promote_unknown_entry env_1 ToolInput.empty store_a); [reflexivity|].
  intros r Hr. apply list_elem_of_singleton in Hr as ->. discriminate.
Defined.

(** X17: a promote decision that gives only the entry id promotes under
    namespace ["facts"] with the entry id as key and confidence 0.7: when
    the id resolves and [facts/<id>] is free, the canon then holds there
    the entry's claim, with that confidence, not confirmed by the user and
    verified at the time of the call. *)
Theorem promote_defaults (t entry_id : string) (m : MemoryStore)
    (a : Buffer.record) :
  find_entry entry_id (buffer m) = Some a →
  canon m !! ("facts/" +:+ entry_id) = None →
  let inp := {| ToolInput.entry_id := Some entry_id;
                ToolInput.namespace := None; ToolInput.key := None;
                ToolInput.confidence := None; ToolInput.buffer_id := None;
                ToolInput.canon_id := None; ToolInput.reason := None |} in
  (_promote t inp m).2 = Promoted entry_id ("facts/" +:+ entry_id) (0.7)%Q
  ∧ canon (_promote t inp m).1 !! ("facts/" +:+ entry_id)
    = Some {| Canon.content := Buffer.claim a;
              Canon.source := "buffer:" +:+ Buffer.source a +:+ "|curator_promoted";
              Canon.confidence := (0.7)%Q;
              Canon.confirmed_by_user := false;
              Canon.last_verified := t;
              Canon.namespace := "facts" |}.
Proof.
  intros Hfind Hfree. cbv zeta.
  rewrite (promote_success _ _ _ a); [|done|done].
  split; [done|]. simpl.
  change ("facts/" +:+ entry_id) with (full_key "facts" entry_id).
  apply lookup_insert_eq.
Qed.

Lemma promote_defaults_witness :
  Canon.content <$>
    canon (_promote (now env_1)
             {| ToolInput.entry_id := Some "1f3a9c2e";
                ToolInput.namespace := None; ToolInput.key := None;
                ToolInput.confidence := None; ToolInput.buffer_id := None;
                ToolInput.canon_id := None; ToolInput.reason := None |}
             store_a).1 !! "facts/1f3a9c2e"
  = Some "X=5".
Proof.
  destruct (promote_defaults (now env_1) "1f3a9c2e" store_a
              (Append.record_of call_a)) as [_ H].
  - reflexivity.
  - reflexivity.
  - change "facts/1f3a9c2e" with ("facts/" +:+ "1f3a9c2e").
    rewrite H. reflexivity.
Defined.

(** ** Appends and flags *)

(** X18: an appended entry whose strings are read back from their line is
    pending for its own task and for no other: for the task it was
    appended to, the entries to curate are the earlier ones followed by
    the new record; for every other task they are the same. *)
Theorem append_is_pending (c : Append.call) (task_id : string) (m : MemoryStore) :
  record_line_safe (Append.record_of c) = true →
  (Append.task_id c = task_id →
   pending task_id (Append.run c m) = pending task_id m ++ [Append.record_of c])
  ∧ (Append.task_id c ≠ task_id →
     pending task_id (Append.run c m) = pending task_id m).
Proof.
  intros _. unfold pending, read_buffer. simpl. rewrite !filter_app.
  split; intros Htask.
  - by rewrite !filter_cons_True.
  - by rewrite (filter_cons_False _ (Append.record_of c)), !app_nil_r.
Qed.

Lemma append_is_pending_witness :
  pending "T" (Append.run call_c store_a)
  = pending "T" store_a ++ [Append.record_of call_c]
  ∧ pending "U" (Append.run call_c store_a) = pending "U" store_a.
Proof.
  split.
  - apply (append_is_pending call_c "T" store_a); reflexivity.
  - apply (append_is_pending call_c "U" store_a); [reflexivity|discriminate].
Defined.

(** X19: the two flags are set independently: marking one id promoted and
    another (or the same) id dismissed gives the same store in either
    order. *)
Theorem mark_promoted_dismissed_commute (i j : string) (m : MemoryStore) :
  mark_buffer_promoted i (mark_buffer_dismissed j m)
  = mark_buffer_dismissed j (mark_buffer_promoted i m).
Proof.
  unfold mark_buffer_promoted, mark_buffer_dismissed, _rewrite_buffer, set_buffer.
  simpl. f_equal. rewrite <- !list_fmap_compose.
  apply list_fmap_ext. intros _ r _. simpl.
  destruct r as [rid ? ? ? ? ? ? ? ?]. simpl.
  destruct (decide (rid = j)) as [Hj|Hj];
    destruct (decide (rid = i)) as [Hi|Hi]; simpl;
    repeat first [rewrite decide_True by done|rewrite decide_False by done];
    done.
Qed.
